(** * Permissions.js: the robots.txt rule trie

    A shallow embedding of [src/Permissions.js]: the trie node
    ([ExpressionNode]), the matcher ([ExpressionTree]) with its insertion
    and its recursive evaluation, and the [Permissions] facade.

    Modelling choices.
    - A JavaScript string is a [string] (a list of [ascii] characters,
      standing for its code units); [expression[i]], a one-character
      string used as a key of a [Map], is an [ascii].
    - [node.children], a [Map] from characters to nodes that is only ever
      used through [has], [get] and [set], is a [gmap ascii ExpressionNode].
    - Every node is created by [addExpression] and owned by exactly one
      parent, so the mutable object graph is a finite tree: a node is a
      value of an inductive type and the in-place mutation of
      [addExpression] is a functional update along the walked path.
    - [console.error] appends a line to an explicit console log.
    - The evaluation is given as a function of the node, and once more as
      a method that threads the matcher through every access to it, to
      show that it only reads. *)

From stdpp Require Import gmap strings list fin_maps.
From Stdlib Require Import Ascii String Permutation Lia.

#[local] Set Warnings "-register-all".
#[local] Open Scope string_scope.

(** ** Strings as the source uses them *)

(** [expression.substr(start)]: the suffix of [expression] from index [start]. *)
Fixpoint substr (expression : string) (start : nat) : string :=
  match start, expression with
  | 0, _ => expression
  | S k, String _ rest => substr rest k
  | S _, EmptyString => EmptyString
  end.

(** ** ExpressionNode *)

Inductive ExpressionNode : Type :=
  mkNode { value : string;
           children : gmap ascii ExpressionNode;
           allowFlag : bool;
           disallowFlag : bool }.

(** [new ExpressionNode(value)] *)
Definition newNode (value : string) : ExpressionNode :=
  mkNode value ∅ false false.

Definition setAllowFlag (node : ExpressionNode) : ExpressionNode :=
  mkNode (value node) (children node) true (disallowFlag node).

Definition setDisallowFlag (node : ExpressionNode) : ExpressionNode :=
  mkNode (value node) (children node) (allowFlag node) true.

Definition setChild (node : ExpressionNode) (character : ascii)
    (child : ExpressionNode) : ExpressionNode :=
  mkNode (value node) (<[character := child]> (children node))
         (allowFlag node) (disallowFlag node).

(** Number of nodes on the longest root-to-leaf branch. *)
Fixpoint height (node : ExpressionNode) : nat :=
  S (map_fold (fun _ child acc => Nat.max (height child) acc) 0 (children node)).

(** The node reached from [node] by following the characters of [path]. *)
Fixpoint nodeAt (path : string) (node : ExpressionNode) : option ExpressionNode :=
  match path with
  | EmptyString => Some node
  | String character rest =>
      match children node !! character with
      | Some child => nodeAt rest child
      | None => None
      end
  end.

(** ** ExpressionTree: insertion *)

Definition ruleTypeError : string :=
  "Can't add expression to the tree, rule type not defined".

(** The body of [if (i == expression.length - 1) { ... }]: the flag
    written on the node just entered, and the lines sent to
    [console.error]. *)
Definition applyRule (ruleType : string) (currentNode : ExpressionNode)
    : ExpressionNode * list string :=
  if decide (ruleType = "allow") then (setAllowFlag currentNode, [])
  else if decide (ruleType = "disallow") then (setDisallowFlag currentNode, [])
  else (currentNode, [ruleTypeError]).

(** The loop of [addExpression], started at [currentNode] with the
    characters of [expression] still to walk.  The result is
    [currentNode] after the mutation of the nodes below it, with the
    console output of the walk. *)
Fixpoint addFrom (ruleType : string) (expression : string)
    (currentNode : ExpressionNode) : ExpressionNode * list string :=
  match expression with
  | EmptyString => (currentNode, [])
  | String character rest =>
      let child :=
        match children currentNode !! character with
        | Some existing => existing
        | None => newNode (String character EmptyString)
        end in
      let '(child, out1) :=
        match rest with
        | EmptyString => applyRule ruleType child
        | _ => (child, [])
        end in
      let '(child, out2) := addFrom ruleType rest child in
      (setChild currentNode character child, (out1 ++ out2)%list)
  end.

(** ** ExpressionTree: evaluation *)

(** Lines 79-87: the [$] child decides when nothing of the path is left. *)
Definition anchorCheck (node : ExpressionNode) (expression : string)
    : option bool :=
  match children node !! "$"%char with
  | Some endOfLineNode =>
      if allowFlag endOfLineNode && Nat.eqb (String.length expression) 0 then Some true
      else if disallowFlag endOfLineNode && Nat.eqb (String.length expression) 0
           then Some false
      else None
  | None => None
  end.

(** Lines 88-94: the path is used up. *)
Definition baseCase (DEFAULT_PERMISSION : bool) (node : ExpressionNode)
    (currentVeredict : bool) : bool :=
  if DEFAULT_PERMISSION
  then (if disallowFlag node then false else currentVeredict)
  else (if allowFlag node then true else currentVeredict).

(** Lines 96-104: the flags of the node fold into the verdict, allow last. *)
Definition foldFlags (node : ExpressionNode) (currentVeredict : bool) : bool :=
  let newVeredict := currentVeredict in
  let newVeredict := if disallowFlag node then false else newVeredict in
  let newVeredict := if allowFlag node then true else newVeredict in
  newVeredict.

(** Lines 117-122: the first collected verdict that is not the default
    replaces the running one. *)
Fixpoint scanVeredicts (DEFAULT_PERMISSION : bool) (veredicts : list bool)
    (newVeredict : bool) : bool :=
  match veredicts with
  | [] => newVeredict
  | v :: others =>
      if negb (Bool.eqb v DEFAULT_PERMISSION) then v
      else scanVeredicts DEFAULT_PERMISSION others newVeredict
  end.

(** Lines 110-115: the start offsets of the wildcard loop,
    [for (let i = 0; i < expression.length; i++)]. *)
Definition wildcardOffsets (expression : string) : list nat :=
  seq 0 (String.length expression).

(** Lines 105-123, given the evaluation of the [*] child. *)
Definition wildcardBranch (DEFAULT_PERMISSION : bool)
    (evalWildcard : option (string -> bool -> bool))
    (expression : string) (newVeredict : bool) : bool :=
  match evalWildcard with
  | Some evalStart =>
      let veredicts :=
        map (fun i => evalStart (substr expression i) newVeredict)
            (wildcardOffsets expression) in
      scanVeredicts DEFAULT_PERMISSION veredicts newVeredict
  | None => newVeredict
  end.

(** Lines 124-132, given the evaluation of the child under
    [expression[0]]. *)
Definition literalBranch (evalChild : ascii -> option (string -> bool -> bool))
    (expression : string) (newVeredict : bool) : bool :=
  match expression with
  | String character _ =>
      match evalChild character with
      | Some evalNext => evalNext (substr expression 1) newVeredict
      | None => newVeredict
      end
  | EmptyString => newVeredict
  end.

(** [__evaluateExpression], by recursion on the node: every recursive
    call of the source is on a child of [node].  [recur] holds the
    evaluation of each child. *)
Fixpoint evaluateAt (DEFAULT_PERMISSION : bool) (node : ExpressionNode)
    {struct node} : string -> bool -> bool :=
  let recur := evaluateAt DEFAULT_PERMISSION <$> children node in
  fun expression currentVeredict =>
    match anchorCheck node expression with
    | Some veredict => veredict
    | None =>
        if Nat.eqb (String.length expression) 0
        then baseCase DEFAULT_PERMISSION node currentVeredict
        else
          let newVeredict := foldFlags node currentVeredict in
          let newVeredict :=
            wildcardBranch DEFAULT_PERMISSION (recur !! "*"%char)
                           expression newVeredict in
          literalBranch (fun character => recur !! character)
                        expression newVeredict
    end.

(** The source's argument order. *)
Definition __evaluateExpression (DEFAULT_PERMISSION : bool)
    (expression : string) (node : ExpressionNode) (currentVeredict : bool)
    : bool :=
  evaluateAt DEFAULT_PERMISSION node expression currentVeredict.

(** The same function with the recursion of the source left as it is and
    a bound [fuel] on the depth of nested calls; [None] when the bound is
    reached. *)
Fixpoint evaluateFuel (fuel : nat) (DEFAULT_PERMISSION : bool)
    (expression : string) (node : ExpressionNode) (currentVeredict : bool)
    : option bool :=
  match fuel with
  | 0 => None
  | S fuel =>
      match anchorCheck node expression with
      | Some veredict => Some veredict
      | None =>
          if Nat.eqb (String.length expression) 0
          then Some (baseCase DEFAULT_PERMISSION node currentVeredict)
          else
            let newVeredict := foldFlags node currentVeredict in
            newVeredict ←
              match children node !! "*"%char with
              | Some wildcardStartNode =>
                  veredicts ←
                    mapM (fun i =>
                            evaluateFuel fuel DEFAULT_PERMISSION
                              (substr expression i) wildcardStartNode
                              newVeredict)
                         (wildcardOffsets expression);
                  Some (scanVeredicts DEFAULT_PERMISSION veredicts newVeredict)
              | None => Some newVeredict
              end;
            match expression with
            | String character _ =>
                match children node !! character with
                | Some child =>
                    evaluateFuel fuel DEFAULT_PERMISSION
                      (substr expression 1) child newVeredict
                | None => Some newVeredict
                end
            | EmptyString => Some newVeredict
            end
      end
  end.

Module ExpressionTree.

Record t : Type :=
  mk { root : ExpressionNode; DEFAULT_PERMISSION : bool }.

(** [new ExpressionTree(DEFAULT_PERMISSION)] *)
Definition new (DEFAULT_PERMISSION : bool) : t :=
  mk (newNode EmptyString) DEFAULT_PERMISSION.

(** [addExpression(expression, ruleType)]: the tree after the call and
    the lines it sent to [console.error]. *)
Definition addExpression (this : t) (expression ruleType : string)
    : t * list string :=
  let '(root', out) := addFrom ruleType expression (root this) in
  (mk root' (DEFAULT_PERMISSION this), out).

(** [evaluateExpression(expression)] *)
Definition evaluateExpression (this : t) (expression : string) : bool :=
  __evaluateExpression (DEFAULT_PERMISSION this) expression (root this)
                       (DEFAULT_PERMISSION this).

End ExpressionTree.

(** ** Permissions: the facade *)

Module Permissions.

Record t : Type :=
  mk { DEFAULT_PERMISSION : bool; trie : ExpressionTree.t }.

(** [new Permissions()] *)
Definition new : t :=
  let DEFAULT_PERMISSION := true in
  mk DEFAULT_PERMISSION (ExpressionTree.new DEFAULT_PERMISSION).

(** [addPath(path, ruleType)] *)
Definition addPath (this : t) (path ruleType : string) : t * list string :=
  let '(trie', out) := ExpressionTree.addExpression (trie this) path ruleType in
  (mk (DEFAULT_PERMISSION this) trie', out).

(** [isAllowed(path)] *)
Definition isAllowed (this : t) (path : string) : bool :=
  ExpressionTree.evaluateExpression (trie this) path.

End Permissions.

(** ** Sequences of calls *)

(** A rule is a pair [(pattern, ruleType)]. *)
Definition rule : Type := string * string.

(** The matcher after the insertions [rules], first to last. *)
Definition insertAll (this : ExpressionTree.t) (rules : list rule)
    : ExpressionTree.t :=
  fold_left (fun tree r => (ExpressionTree.addExpression tree r.1 r.2).1)
            rules this.

(** The facade after the [addPath] calls [rules], first to last. *)
Definition addPaths (this : Permissions.t) (rules : list rule)
    : Permissions.t :=
  fold_left (fun p r => (Permissions.addPath p r.1 r.2).1) rules this.

(** A call on the facade. *)
Inductive call : Type :=
  | AddPath (path ruleType : string)
  | IsAllowed (path : string).

(** ** Notions used to state and prove the properties *)

(** The flag update of [applyRule] alone. *)
Definition mark (ruleType : string) (node : ExpressionNode) : ExpressionNode :=
  (applyRule ruleType node).1.

(** The child entered by the loop of [addExpression] under [character]:
    the one already there, or the node created for it. *)
Definition enter (node : ExpressionNode) (character : ascii) : ExpressionNode :=
  match children node !! character with
  | Some existing => existing
  | None => newNode (String character EmptyString)
  end.

(** The tree below [node] once [expression] has been walked from it and
    the node at its end marked.  For a non-empty [expression] this is the
    tree part of [addFrom] (lemma [addFrom_markAt]). *)
Fixpoint markAt (ruleType : string) (expression : string)
    (node : ExpressionNode) : ExpressionNode :=
  match expression with
  | EmptyString => mark ruleType node
  | String character rest =>
      setChild node character (markAt ruleType rest (enter node character))
  end.

(** The flags read at the end of [path], both false where no node is. *)
Definition flagsAt (path : string) (node : ExpressionNode) : bool * bool :=
  match nodeAt path node with
  | Some m => (allowFlag m, disallowFlag m)
  | None => (false, false)
  end.

(** No node at or below [node] carries a flag. *)
Definition flagless (node : ExpressionNode) : Prop :=
  forall path, flagsAt path node = (false, false).

(** [padded a b]: [b] is [a] with, possibly, more nodes that carry no
    flag. *)
Inductive padded : ExpressionNode -> ExpressionNode -> Prop :=
  | padded_node (a b : ExpressionNode) :
      allowFlag a = allowFlag b ->
      disallowFlag a = disallowFlag b ->
      (forall c x, children a !! c = Some x ->
                   exists y, children b !! c = Some y /\ padded x y) ->
      (forall c y, children a !! c = None -> children b !! c = Some y ->
                   flagless y) ->
      padded a b.

(** The recursive calls of [__evaluateExpression]: [subcall callee caller]
    when evaluating [caller = (expression, node)] calls the function on
    [callee]. *)
Inductive subcall : string * ExpressionNode -> string * ExpressionNode -> Prop :=
  | subcall_wildcard (expression : string) (node wildcardStartNode : ExpressionNode)
      (i : nat) :
      String.length expression <> 0 ->
      children node !! "*"%char = Some wildcardStartNode ->
      i < String.length expression ->
      subcall (substr expression i, wildcardStartNode) (expression, node)
  | subcall_literal (character : ascii) (rest : string)
      (node child : ExpressionNode) :
      children node !! character = Some child ->
      subcall (substr (String character rest) 1, child)
              (String character rest, node).

(** The wildcard step of the evaluation at [node], whose [*] child is
    [wildcardStartNode], on the remaining path [r] under the verdict
    [currentVeredict], with the number of start offsets left open: one
    verdict is collected per offset [i < offsets r], the verdict of the
    suffix of [r] at [i] on the wildcard child under the running verdict;
    the first one that differs from the default becomes the running
    verdict, which is unchanged when none differs; the literal branch
    then continues with it. *)
Definition WildcardStepAt (offsets : string -> nat) (D : bool)
    (node wildcardStartNode : ExpressionNode) (r : string)
    (currentVeredict : bool) : Prop :=
  exists (veredicts : list bool) (newVeredict : bool),
    List.length veredicts = offsets r /\
    (forall i, i < offsets r ->
       nth_error veredicts i =
         Some (__evaluateExpression D (substr r i) wildcardStartNode
                                    (foldFlags node currentVeredict))) /\
    ((exists i v, nth_error veredicts i = Some v /\ v <> D /\
                  (forall j, j < i -> nth_error veredicts j = Some D) /\
                  newVeredict = v) \/
     ((forall i v, nth_error veredicts i = Some v -> v = D) /\
      newVeredict = foldFlags node currentVeredict)) /\
    __evaluateExpression D r node currentVeredict =
      match r with
      | String character _ =>
          match children node !! character with
          | Some child =>
              __evaluateExpression D (substr r 1) child newVeredict
          | None => newVeredict
          end
      | EmptyString => newVeredict
      end.

(** The start offsets of the source: [0 <= i < r.length]. *)
Definition offsetsExclusive (r : string) : nat := String.length r.

(** The start offsets [0 <= i <= r.length], the empty suffix included. *)
Definition offsetsInclusive (r : string) : nat := S (String.length r).

(** Whether [rules] holds the rule [(pattern, ruleType)]. *)
Definition hasRule (pattern ruleType : string) (rules : list rule) : bool :=
  existsb (fun r => bool_decide (r = (pattern, ruleType))) rules.

(** ** Notions used for the further properties *)

(** Whether a node stands at the end of [path]. *)
Definition present (path : string) (node : ExpressionNode) : bool :=
  match nodeAt path node with
  | Some _ => true
  | None => false
  end.

(** Whether [character] occurs in [s]. *)
Fixpoint occurs (character : ascii) (s : string) : bool :=
  match s with
  | EmptyString => false
  | String x rest => bool_decide (x = character) || occurs character rest
  end.

(** A pattern without the two characters that the evaluation reads
    specially. *)
Definition plain (pattern : string) : bool :=
  negb (occurs "*" pattern) && negb (occurs "$" pattern).

(** No node at or below [node] has a [*] or a [$] child. *)
Definition wildfree (node : ExpressionNode) : Prop :=
  forall path m,
    nodeAt path node = Some m ->
    children m !! "*"%char = None /\ children m !! "$"%char = None.

(** No node at or below [node] has its allow flag set. *)
Definition noAllowFlag (node : ExpressionNode) : Prop :=
  forall path, (flagsAt path node).1 = false.

(** No node at or below [node] has its disallow flag set. *)
Definition noDisallowFlag (node : ExpressionNode) : Prop :=
  forall path, (flagsAt path node).2 = false.

(** No rule of [rules] with a non-empty pattern has the type [ruleType]. *)
Definition noRuleOfType (ruleType : string) (rules : list rule) : bool :=
  forallb (fun r => bool_decide (r.1 = EmptyString)
                    || negb (bool_decide (r.2 = ruleType))) rules.

(** The first character of a pattern, if any. *)
Definition firstCharacter (pattern : string) : option ascii :=
  match pattern with
  | EmptyString => None
  | String character _ => Some character
  end.

(** The length of the longest pattern of [rules]. *)
Definition longestPattern (rules : list rule) : nat :=
  fold_right (fun r acc => Nat.max (String.length r.1) acc) 0 rules.

(** The two flags that [rules] give to the pattern [pattern]: whether
    it was inserted as allow, and as disallow.  The empty pattern gets
    none. *)
Definition ruleFlags (rules : list rule) (pattern : string) : bool * bool :=
  match pattern with
  | EmptyString => (false, false)
  | _ => (hasRule pattern "allow" rules, hasRule pattern "disallow" rules)
  end.

(** A verdict read off the list of rules alone, without a tree: the
    prefixes of the path are visited from the shortest, [walked] being
    the prefix reached and [rest] what is left of the path.  A rule for a
    proper prefix sets the verdict, allow after disallow; a rule for the
    whole path counts only when it goes against the default. *)
Fixpoint prefixVerdict (D : bool) (rules : list rule) (walked rest : string)
    (veredict : bool) : bool :=
  match rest with
  | EmptyString =>
      if D
      then (if (ruleFlags rules walked).2 then false else veredict)
      else (if (ruleFlags rules walked).1 then true else veredict)
  | String character rest' =>
      let veredict := if (ruleFlags rules walked).2 then false else veredict in
      let veredict := if (ruleFlags rules walked).1 then true else veredict in
      prefixVerdict D rules (walked ++ String character EmptyString) rest'
                    veredict
  end.

(** ** Evaluation as a method that reads the matcher *)

(** The evaluation once more, this time with every access to the
    matcher and to its nodes written out: a method takes the matcher as
    it is and returns its result with the matcher as it leaves it.  A
    node is referred to by the path that leads to it from the root, its
    identity in a tree where every node has one parent. *)
Definition Method (A : Type) : Type :=
  ExpressionTree.t -> A * ExpressionTree.t.

Definition methodRet {A : Type} (a : A) : Method A :=
  fun this => (a, this).

Definition methodBind {A B : Type} (m : Method A) (k : A -> Method B)
    : Method B :=
  fun this => let '(a, this') := m this in k a this'.

Notation "x <-- m ;; k" := (methodBind m (fun x => k))
  (at level 100, m at next level, right associativity).

(** A reference to a node: the path from the root. *)
Definition nodeRef : Type := string.

(** [this.root] *)
Definition getRoot : Method nodeRef :=
  fun this => (EmptyString, this).

(** [this.DEFAULT_PERMISSION] *)
Definition getDefault : Method bool :=
  fun this => (ExpressionTree.DEFAULT_PERMISSION this, this).

(** [node.children.has(character)] *)
Definition childrenHas (node : nodeRef) (character : ascii) : Method bool :=
  fun this =>
    (present (node ++ String character EmptyString) (ExpressionTree.root this),
     this).

(** [node.children.get(character)] *)
Definition childrenGet (node : nodeRef) (character : ascii) : Method nodeRef :=
  fun this => (node ++ String character EmptyString, this).

(** [node.allowFlag] *)
Definition getAllowFlag (node : nodeRef) : Method bool :=
  fun this => ((flagsAt node (ExpressionTree.root this)).1, this).

(** [node.disallowFlag] *)
Definition getDisallowFlag (node : nodeRef) : Method bool :=
  fun this => ((flagsAt node (ExpressionTree.root this)).2, this).

(** Lines 117-122, the default read at each turn of the loop. *)
Fixpoint scanM (veredicts : list bool) (newVeredict : bool) : Method bool :=
  match veredicts with
  | [] => methodRet newVeredict
  | v :: others =>
      D <-- getDefault ;;
      if negb (Bool.eqb v D) then methodRet v else scanM others newVeredict
  end.

(** Lines 110-115: the loop that pushes the verdict of each suffix;
    [None] when a call hit the bound on the nesting. *)
Fixpoint collectM (call : nat -> Method (option bool)) (offsets : list nat)
    : Method (option (list bool)) :=
  match offsets with
  | [] => methodRet (Some [])
  | i :: later =>
      veredict <-- call i ;;
      match veredict with
      | None => methodRet None
      | Some v =>
          veredicts <-- collectM call later ;;
          methodRet (option_map (cons v) veredicts)
      end
  end.

(** [__evaluateExpression] (lines 78-133) as a method, with a bound
    [fuel] on the nesting of its calls; [None] when the bound is hit. *)
Fixpoint evaluateM (fuel : nat) (expression : string) (node : nodeRef)
    (currentVeredict : bool) : Method (option bool) :=
  match fuel with
  | 0 => methodRet None
  | S fuel =>
      hasEndOfLine <-- childrenHas node "$" ;;
      returned <--
        (if hasEndOfLine
         then
           endOfLineNode <-- childrenGet node "$" ;;
           allowed <-- getAllowFlag endOfLineNode ;;
           if allowed && Nat.eqb (String.length expression) 0
           then methodRet (Some true)
           else
             disallowed <-- getDisallowFlag endOfLineNode ;;
             if disallowed && Nat.eqb (String.length expression) 0
             then methodRet (Some false)
             else methodRet None
         else methodRet None) ;;
      match returned with
      | Some veredict => methodRet (Some veredict)
      | None =>
          if Nat.eqb (String.length expression) 0
          then
            D <-- getDefault ;;
            if D
            then
              disallowed <-- getDisallowFlag node ;;
              methodRet (Some (if disallowed then false else currentVeredict))
            else
              allowed <-- getAllowFlag node ;;
              methodRet (Some (if allowed then true else currentVeredict))
          else
            let newVeredict := currentVeredict in
            disallowed <-- getDisallowFlag node ;;
            let newVeredict := if disallowed then false else newVeredict in
            allowed <-- getAllowFlag node ;;
            let newVeredict := if allowed then true else newVeredict in
            hasWildcard <-- childrenHas node "*" ;;
            afterWildcard <--
              (if hasWildcard
               then
                 wildcardStartNode <-- childrenGet node "*" ;;
                 veredicts <--
                   collectM (fun i => evaluateM fuel (substr expression i)
                                        wildcardStartNode newVeredict)
                            (wildcardOffsets expression) ;;
                 match veredicts with
                 | Some veredicts =>
                     scanned <-- scanM veredicts newVeredict ;;
                     methodRet (Some scanned)
                 | None => methodRet None
                 end
               else methodRet (Some newVeredict)) ;;
            match afterWildcard with
            | None => methodRet None
            | Some newVeredict =>
                match expression with
                | String character _ =>
                    hasNext <-- childrenHas node character ;;
                    if hasNext
                    then
                      next <-- childrenGet node character ;;
                      evaluateM fuel (substr expression 1) next newVeredict
                    else methodRet (Some newVeredict)
                | EmptyString => methodRet (Some newVeredict)
                end
            end
      end
  end.

(** [evaluateExpression] (lines 64-70) as a method.  The bound on the
    nesting is the height of the tree as the call finds it. *)
Definition evaluateExpressionM (expression : string) : Method (option bool) :=
  fun this =>
    (root <-- getRoot ;;
     D <-- getDefault ;;
     evaluateM (height (ExpressionTree.root this)) expression root D) this.

(** [isAllowed] (lines 20-22) on the facade: the answer and the facade
    as the call leaves it. *)
Definition isAllowedM (this : Permissions.t) (path : string)
    : option bool * Permissions.t :=
  let '(answer, trie') := evaluateExpressionM path (Permissions.trie this) in
  (answer, Permissions.mk (Permissions.DEFAULT_PERMISSION this) trie').

(** [addExpression] (lines 42-62) as a method: its result is what it
    sent to the console. *)
Definition addExpressionM (expression ruleType : string)
    : Method (list string) :=
  fun this =>
    let '(this', out) :=
      ExpressionTree.addExpression this expression ruleType in
    (out, this').

(** A method that leaves the matcher as it found it. *)
Definition readOnly {A : Type} (m : Method A) : Prop :=
  forall this, (m this).2 = this.

(** A method that, on [this], returns [a] and leaves [this] as it is. *)
Definition yields {A : Type} (m : Method A) (this : ExpressionTree.t) (a : A)
    : Prop :=
  m this = (a, this).

(** What a client observes of a call: nothing for [addPath], the answer
    for [isAllowed] ([None] when the bound on the nesting was hit). *)
Inductive outcome : Type :=
  | Done
  | Answer (allowed : option bool).

(** One call: the facade afterwards and the outcome. *)
Definition step (this : Permissions.t) (c : call) : Permissions.t * outcome :=
  match c with
  | AddPath path ruleType => ((Permissions.addPath this path ruleType).1, Done)
  | IsAllowed path =>
      let '(answer, this') := isAllowedM this path in (this', Answer answer)
  end.

(** A sequence of calls: the facade afterwards and the outcomes in order. *)
Fixpoint run (this : Permissions.t) (calls : list call)
    : Permissions.t * list outcome :=
  match calls with
  | [] => (this, [])
  | c :: later =>
      let '(this', o) := step this c in
      let '(final, os) := run this' later in
      (final, o :: os)
  end.

(** * Properties *)

(** ** The tree of nodes *)

Section Height.
Context {A : Type} (h : A -> nat).

Lemma map_fold_max_bound (m : gmap ascii A) (c : ascii) (x : A) :
  m !! c = Some x ->
  h x <= map_fold (fun _ child acc => Nat.max (h child) acc) 0 m.
Proof.
  induction m as [|i y m Hi IH] using map_ind; intros Hl.
  - rewrite lookup_empty in Hl. discriminate.
  - rewrite map_fold_insert_L; [| intros; lia | exact Hi].
    destruct (decide (i = c)) as [->|Hne].
    + rewrite lookup_insert_eq in Hl. injection Hl as ->. lia.
    + rewrite lookup_insert_ne in Hl by exact Hne. specialize (IH Hl). lia.
Qed.
End Height.

Lemma height_child node c child :
  children node !! c = Some child -> height child < height node.
Proof.
  intros H. destruct node as [v ch a d]; simpl in *.
  pose proof (map_fold_max_bound height ch c child H) as Hb. lia.
Qed.

Lemma height_pos node : 0 < height node.
Proof. destruct node; simpl; lia. Qed.

(** Induction on a node from its children. *)
Lemma ExpressionNode_child_ind (P : ExpressionNode -> Prop) :
  (forall node,
      (forall c child, children node !! c = Some child -> P child) -> P node) ->
  forall node, P node.
Proof.
  intros step node.
  remember (height node) as k eqn:Hk.
  revert node Hk. induction k as [k IH] using lt_wf_ind.
  intros node ->. apply step. intros c child Hc.
  apply (IH (height child)); [exact (height_child _ _ _ Hc) | reflexivity].
Qed.

(** ** Evaluation: the equation of the source *)

Lemma evaluateAt_unfold D node expression v :
  evaluateAt D node expression v =
    match anchorCheck node expression with
    | Some veredict => veredict
    | None =>
        if Nat.eqb (String.length expression) 0
        then baseCase D node v
        else
          let newVeredict := foldFlags node v in
          let newVeredict :=
            wildcardBranch D (evaluateAt D <$> children node !! "*"%char)
                           expression newVeredict in
          literalBranch
            (fun character => evaluateAt D <$> children node !! character)
            expression newVeredict
    end.
Proof.
  destruct node as [val ch a d]. simpl.
  destruct (anchorCheck _ _); [reflexivity|].
  destruct (Nat.eqb _ _); [reflexivity|].
  rewrite lookup_fmap. unfold literalBranch.
  destruct expression as [|c rest]; [reflexivity|].
  rewrite lookup_fmap. reflexivity.
Qed.

Lemma anchorCheck_nonempty node c rest : anchorCheck node (String c rest) = None.
Proof.
  unfold anchorCheck. destruct (children node !! "$"%char); [|reflexivity].
  simpl. rewrite !andb_false_r. reflexivity.
Qed.

Lemma substr_0 s : substr s 0 = s.
Proof. destruct s; reflexivity. Qed.

Lemma substr_1 c rest : substr (String c rest) 1 = rest.
Proof. simpl. apply substr_0. Qed.

(** A step on a non-empty path. *)
Lemma evaluateAt_cons D node c rest v :
  evaluateAt D node (String c rest) v =
    let newVeredict :=
      wildcardBranch D (evaluateAt D <$> children node !! "*"%char)
                     (String c rest) (foldFlags node v) in
    match children node !! c with
    | Some child => evaluateAt D child rest newVeredict
    | None => newVeredict
    end.
Proof.
  rewrite evaluateAt_unfold, anchorCheck_nonempty. simpl Nat.eqb. cbv iota.
  unfold literalBranch. rewrite substr_1.
  destruct (children node !! c); reflexivity.
Qed.

(** The step on the empty path. *)
Lemma evaluateAt_empty D node v :
  evaluateAt D node EmptyString v =
    match anchorCheck node EmptyString with
    | Some veredict => veredict
    | None => baseCase D node v
    end.
Proof. rewrite evaluateAt_unfold. reflexivity. Qed.

Lemma scanVeredicts_all D veredicts v :
  (forall x, In x veredicts -> x = v) -> scanVeredicts D veredicts v = v.
Proof.
  induction veredicts as [|x l IH]; intros H; simpl; [reflexivity|].
  destruct (negb (Bool.eqb x D)).
  - apply H. left. reflexivity.
  - apply IH. intros y Hy. apply H. right. exact Hy.
Qed.

Lemma wildcardBranch_const D expression v :
  wildcardBranch D (Some (fun _ w => w)) expression v = v.
Proof.
  unfold wildcardBranch. apply scanVeredicts_all.
  intros x Hx. apply in_map_iff in Hx. destruct Hx as [i [<- _]]. reflexivity.
Qed.

Lemma wildcardBranch_ext D f g expression v :
  (forall e w, f e w = g e w) ->
  wildcardBranch D (Some f) expression v = wildcardBranch D (Some g) expression v.
Proof.
  intros H. unfold wildcardBranch. f_equal.
  apply map_ext. intros i. apply H.
Qed.

(** ** Insertion: the tree it builds *)

Lemma addFrom_markAt ruleType c rest node :
  (addFrom ruleType (String c rest) node).1 = markAt ruleType (String c rest) node.
Proof.
  revert c node. induction rest as [|c' rest' IH]; intros c node.
  - simpl. fold (enter node c). unfold mark.
    destruct (applyRule ruleType (enter node c)) as [child out]. reflexivity.
  - specialize (IH c' (enter node c)).
    change (addFrom ruleType (String c (String c' rest')) node)
      with (let '(child, out2) :=
              addFrom ruleType (String c' rest') (enter node c) in
            (setChild node c child, ([] ++ out2)%list)).
    destruct (addFrom ruleType (String c' rest') (enter node c)) as [child out2].
    simpl in IH. subst child. reflexivity.
Qed.

(** The tree part of [addFrom]: nothing for the empty expression. *)
Lemma addFrom_tree ruleType expression node :
  (addFrom ruleType expression node).1 =
    match expression with
    | EmptyString => node
    | _ => markAt ruleType expression node
    end.
Proof. destruct expression; [reflexivity | apply addFrom_markAt]. Qed.

(** The console part of [addFrom]: one line, when the expression is not
    empty and the rule type is neither of the two. *)
Lemma addFrom_console ruleType expression node :
  (addFrom ruleType expression node).2 =
    match expression with
    | EmptyString => []
    | _ => if decide (ruleType = "allow") then []
           else if decide (ruleType = "disallow") then []
           else [ruleTypeError]
    end.
Proof.
  revert node. induction expression as [|c rest IH]; intros node; [reflexivity|].
  destruct rest as [|c' rest'].
  - simpl. unfold applyRule.
    destruct (decide (ruleType = "allow")); [reflexivity|].
    destruct (decide (ruleType = "disallow")); reflexivity.
  - specialize (IH (enter node c)).
    change (addFrom ruleType (String c (String c' rest')) node)
      with (let '(child, out2) :=
              addFrom ruleType (String c' rest') (enter node c) in
            (setChild node c child, ([] ++ out2)%list)).
    destruct (addFrom ruleType (String c' rest') (enter node c)) as [child out2].
    simpl in IH. simpl. exact IH.
Qed.

Lemma mark_children ruleType node : children (mark ruleType node) = children node.
Proof.
  unfold mark, applyRule.
  destruct (decide _); [reflexivity|]. destruct (decide _); reflexivity.
Qed.

Lemma mark_invalid ruleType node :
  ruleType <> "allow" -> ruleType <> "disallow" -> mark ruleType node = node.
Proof.
  intros Ha Hd. unfold mark, applyRule.
  destruct (decide _); [contradiction|]. destruct (decide _); [contradiction|].
  reflexivity.
Qed.

Lemma mark_allowFlag ruleType node :
  allowFlag (mark ruleType node) =
    allowFlag node || bool_decide (ruleType = "allow").
Proof.
  unfold mark, applyRule.
  destruct (decide (ruleType = "allow")) as [->|Ha].
  - simpl. rewrite orb_true_r. reflexivity.
  - rewrite bool_decide_eq_false_2 by exact Ha. rewrite orb_false_r.
    destruct (decide _); reflexivity.
Qed.

Lemma mark_disallowFlag ruleType node :
  disallowFlag (mark ruleType node) =
    disallowFlag node || bool_decide (ruleType = "disallow").
Proof.
  unfold mark, applyRule.
  destruct (decide (ruleType = "allow")) as [->|Ha].
  - simpl. rewrite orb_false_r. reflexivity.
  - destruct (decide (ruleType = "disallow")) as [->|Hd].
    + simpl. rewrite orb_true_r. reflexivity.
    + rewrite bool_decide_eq_false_2 by exact Hd. rewrite orb_false_r. reflexivity.
Qed.

Lemma enter_mark ruleType node c : enter (mark ruleType node) c = enter node c.
Proof. unfold enter. rewrite mark_children. reflexivity. Qed.

Lemma mark_setChild ruleType node c x :
  mark ruleType (setChild node c x) = setChild (mark ruleType node) c x.
Proof.
  unfold mark, applyRule.
  destruct (decide _); [reflexivity|]. destruct (decide _); reflexivity.
Qed.

Lemma mark_comm k1 k2 node : mark k1 (mark k2 node) = mark k2 (mark k1 node).
Proof.
  unfold mark, applyRule.
  destruct (decide (k1 = "allow")), (decide (k1 = "disallow")),
           (decide (k2 = "allow")), (decide (k2 = "disallow")); reflexivity.
Qed.

Lemma children_setChild node c x c' :
  children (setChild node c x) !! c' =
    if decide (c = c') then Some x else children node !! c'.
Proof. simpl. apply lookup_insert. Qed.

Lemma enter_setChild_eq node c x : enter (setChild node c x) c = x.
Proof. unfold enter. rewrite children_setChild. rewrite decide_True by reflexivity. reflexivity. Qed.

Lemma enter_setChild_ne node c x c' :
  c <> c' -> enter (setChild node c x) c' = enter node c'.
Proof.
  intros H. unfold enter. rewrite children_setChild.
  rewrite decide_False by exact H. reflexivity.
Qed.

Lemma setChild_setChild_eq node c x y :
  setChild (setChild node c x) c y = setChild node c y.
Proof. unfold setChild. simpl. rewrite insert_insert_eq. reflexivity. Qed.

Lemma setChild_setChild_ne node c1 c2 x y :
  c1 <> c2 ->
  setChild (setChild node c1 x) c2 y = setChild (setChild node c2 y) c1 x.
Proof.
  intros H. unfold setChild. simpl. f_equal.
  apply insert_insert_ne. congruence.
Qed.

Lemma mark_markAt k1 k2 expression node :
  mark k1 (markAt k2 expression node) = markAt k2 expression (mark k1 node).
Proof.
  destruct expression as [|c rest]; simpl.
  - apply mark_comm.
  - rewrite mark_setChild, enter_mark. reflexivity.
Qed.

(** Two walks commute, whatever they share. *)
Lemma markAt_comm k1 e1 k2 e2 node :
  markAt k1 e1 (markAt k2 e2 node) = markAt k2 e2 (markAt k1 e1 node).
Proof.
  revert e2 node. induction e1 as [|c1 r1 IH]; intros e2 node.
  - simpl. apply mark_markAt.
  - destruct e2 as [|c2 r2].
    + simpl. symmetry. rewrite mark_setChild, enter_mark. reflexivity.
    + simpl. destruct (decide (c1 = c2)) as [<-|Hne].
      * rewrite !enter_setChild_eq, !setChild_setChild_eq, IH. reflexivity.
      * rewrite enter_setChild_ne by congruence.
        rewrite (enter_setChild_ne node c1) by exact Hne.
        apply setChild_setChild_ne. congruence.
Qed.

Lemma addFrom_comm k1 e1 k2 e2 node :
  (addFrom k1 e1 (addFrom k2 e2 node).1).1 =
  (addFrom k2 e2 (addFrom k1 e1 node).1).1.
Proof.
  rewrite !addFrom_tree.
  destruct e1, e2; try reflexivity. apply markAt_comm.
Qed.

Lemma addExpression_root this expression ruleType :
  ExpressionTree.root (ExpressionTree.addExpression this expression ruleType).1 =
    (addFrom ruleType expression (ExpressionTree.root this)).1.
Proof.
  unfold ExpressionTree.addExpression.
  destruct (addFrom ruleType expression (ExpressionTree.root this)). reflexivity.
Qed.

Lemma addExpression_default this expression ruleType :
  ExpressionTree.DEFAULT_PERMISSION
    (ExpressionTree.addExpression this expression ruleType).1 =
  ExpressionTree.DEFAULT_PERMISSION this.
Proof.
  unfold ExpressionTree.addExpression.
  destruct (addFrom ruleType expression (ExpressionTree.root this)). reflexivity.
Qed.

Lemma addExpression_console this expression ruleType :
  (ExpressionTree.addExpression this expression ruleType).2 =
    (addFrom ruleType expression (ExpressionTree.root this)).2.
Proof.
  unfold ExpressionTree.addExpression.
  destruct (addFrom ruleType expression (ExpressionTree.root this)). reflexivity.
Qed.

Lemma tree_eq (a b : ExpressionTree.t) :
  ExpressionTree.root a = ExpressionTree.root b ->
  ExpressionTree.DEFAULT_PERMISSION a = ExpressionTree.DEFAULT_PERMISSION b ->
  a = b.
Proof. destruct a, b. simpl. intros -> ->. reflexivity. Qed.

Lemma addExpression_comm this e1 k1 e2 k2 :
  (ExpressionTree.addExpression
     (ExpressionTree.addExpression this e1 k1).1 e2 k2).1 =
  (ExpressionTree.addExpression
     (ExpressionTree.addExpression this e2 k2).1 e1 k1).1.
Proof.
  apply tree_eq.
  - rewrite !addExpression_root. apply addFrom_comm.
  - rewrite !addExpression_default. reflexivity.
Qed.

Lemma insertAll_cons this r rules :
  insertAll this (r :: rules) =
    insertAll (ExpressionTree.addExpression this r.1 r.2).1 rules.
Proof. reflexivity. Qed.

Lemma insertAll_default this rules :
  ExpressionTree.DEFAULT_PERMISSION (insertAll this rules) =
  ExpressionTree.DEFAULT_PERMISSION this.
Proof.
  revert this. induction rules as [|r rules IH]; intros this; [reflexivity|].
  rewrite insertAll_cons, IH. apply addExpression_default.
Qed.

(** The tree does not depend on the order of the insertions. *)
Lemma insertAll_Permutation rules rules' :
  Permutation rules rules' ->
  forall this, insertAll this rules = insertAll this rules'.
Proof.
  induction 1 as [|r l l' _ IH|r1 r2 l|l l' l'' _ IH1 _ IH2]; intros this.
  - reflexivity.
  - rewrite !insertAll_cons. apply IH.
  - rewrite !insertAll_cons. f_equal. apply addExpression_comm.
  - rewrite IH1. apply IH2.
Qed.

(** ** Nodes without flags *)

Lemma flagsAt_empty node :
  flagsAt EmptyString node = (allowFlag node, disallowFlag node).
Proof. reflexivity. Qed.

Lemma flagsAt_cons c rest node :
  flagsAt (String c rest) node =
    match children node !! c with
    | Some child => flagsAt rest child
    | None => (false, false)
    end.
Proof. unfold flagsAt. simpl. destruct (children node !! c); reflexivity. Qed.

Lemma flagless_flags node :
  flagless node -> allowFlag node = false /\ disallowFlag node = false.
Proof.
  intros H. specialize (H EmptyString). rewrite flagsAt_empty in H.
  split; congruence.
Qed.

Lemma flagless_child node c child :
  flagless node -> children node !! c = Some child -> flagless child.
Proof.
  intros H Hc path. specialize (H (String c path)).
  rewrite flagsAt_cons, Hc in H. exact H.
Qed.

Lemma flagless_newNode value : flagless (newNode value).
Proof.
  intros [|c rest]; [reflexivity|].
  rewrite flagsAt_cons. simpl. rewrite lookup_empty. reflexivity.
Qed.

Lemma anchorCheck_flagless node expression :
  (forall x, children node !! "$"%char = Some x -> flagless x) ->
  anchorCheck node expression = None.
Proof.
  intros H. unfold anchorCheck.
  destruct (children node !! "$"%char) as [x|]; [|reflexivity].
  destruct (flagless_flags x (H x eq_refl)) as [-> ->]. reflexivity.
Qed.

(** A subtree without flags hands the verdict back as it got it. *)
Lemma flagless_evaluateAt D node :
  flagless node -> forall expression v, evaluateAt D node expression v = v.
Proof.
  induction node as [node IH] using ExpressionNode_child_ind.
  intros Hfl expression v.
  destruct (flagless_flags node Hfl) as [Ha Hd].
  assert (Hanchor : forall e, anchorCheck node e = None).
  { intros e. apply anchorCheck_flagless.
    intros x Hx. exact (flagless_child _ _ _ Hfl Hx). }
  assert (Hfold : foldFlags node v = v).
  { unfold foldFlags. rewrite Ha, Hd. reflexivity. }
  destruct expression as [|c rest].
  - rewrite evaluateAt_empty, Hanchor. unfold baseCase. rewrite Ha, Hd.
    destruct D; reflexivity.
  - rewrite evaluateAt_cons, Hfold. cbv zeta.
    assert (Hw : wildcardBranch D (evaluateAt D <$> children node !! "*"%char)
                   (String c rest) v = v).
    { destruct (children node !! "*"%char) as [w|] eqn:Hwc; [|reflexivity].
      change (evaluateAt D <$> Some w) with (Some (evaluateAt D w)).
      rewrite (wildcardBranch_ext D _ (fun _ u => u)).
      - apply wildcardBranch_const.
      - intros e u. apply (IH _ _ Hwc). exact (flagless_child _ _ _ Hfl Hwc). }
    rewrite Hw.
    destruct (children node !! c) as [child|] eqn:Hc; [|reflexivity].
    apply (IH _ _ Hc). exact (flagless_child _ _ _ Hfl Hc).
Qed.


(** ** A tree and the same tree with more flagless nodes *)

Lemma padded_refl node : padded node node.
Proof.
  induction node as [node IH] using ExpressionNode_child_ind.
  constructor; try reflexivity.
  - intros c x Hx. exists x. split; [exact Hx | exact (IH _ _ Hx)].
  - intros c y Hn Hy. congruence.
Qed.

Lemma padded_fresh value node : flagless node -> padded (newNode value) node.
Proof.
  intros Hfl. destruct (flagless_flags node Hfl) as [Ha Hd].
  constructor; simpl; try congruence.
  - intros c x Hx. rewrite lookup_empty in Hx. discriminate.
  - intros c y _ Hy. exact (flagless_child _ _ _ Hfl Hy).
Qed.

Lemma padded_flagsAt a b :
  padded a b -> forall path, flagsAt path a = flagsAt path b.
Proof.
  intros H path. revert a b H.
  induction path as [|c rest IH]; intros a b H;
    destruct H as [a b Ha Hd Hsome Hnone].
  - rewrite !flagsAt_empty. congruence.
  - rewrite !flagsAt_cons.
    destruct (children a !! c) as [x|] eqn:Hx.
    + destruct (Hsome c x Hx) as [y [-> Hxy]]. apply IH. exact Hxy.
    + destruct (children b !! c) as [y|] eqn:Hy; [|reflexivity].
      symmetry. apply (Hnone c y Hx Hy).
Qed.

Lemma padded_flagless a b : padded a b -> flagless a -> flagless b.
Proof.
  intros H Hfl path. rewrite <- (padded_flagsAt a b H). apply Hfl.
Qed.

Lemma padded_enter a b c : padded a b -> padded (enter a c) (enter b c).
Proof.
  intros H. destruct H as [a b Ha Hd Hsome Hnone]. unfold enter.
  destruct (children a !! c) as [x|] eqn:Hx.
  - destruct (Hsome c x Hx) as [y [-> Hxy]]. exact Hxy.
  - destruct (children b !! c) as [y|] eqn:Hy.
    + apply padded_fresh. exact (Hnone c y Hx Hy).
    + apply padded_refl.
Qed.

Lemma padded_mark ruleType a b :
  padded a b -> padded (mark ruleType a) (mark ruleType b).
Proof.
  intros H. destruct H as [a b Ha Hd Hsome Hnone].
  constructor.
  - rewrite !mark_allowFlag. congruence.
  - rewrite !mark_disallowFlag. congruence.
  - intros c x. rewrite !mark_children. apply Hsome.
  - intros c y. rewrite !mark_children. apply Hnone.
Qed.

Lemma padded_setChild a b c x y :
  padded a b -> padded x y -> padded (setChild a c x) (setChild b c y).
Proof.
  intros H Hxy. destruct H as [a b Ha Hd Hsome Hnone].
  constructor; try assumption.
  - intros c' x'. rewrite !children_setChild.
    destruct (decide (c = c')) as [_|_].
    + intros [= <-]. exists y. split; [reflexivity | exact Hxy].
    + apply Hsome.
  - intros c' y'. rewrite !children_setChild.
    destruct (decide (c = c')) as [_|_]; [discriminate | apply Hnone].
Qed.

(** Insertion keeps the relation. *)
Lemma padded_markAt ruleType expression a b :
  padded a b ->
  padded (markAt ruleType expression a) (markAt ruleType expression b).
Proof.
  revert a b. induction expression as [|c rest IH]; intros a b H; simpl.
  - apply padded_mark. exact H.
  - apply padded_setChild; [exact H|]. apply IH. apply padded_enter. exact H.
Qed.

(** An insertion with an unknown rule type only pads the tree. *)
Lemma padded_markAt_invalid ruleType expression node :
  ruleType <> "allow" -> ruleType <> "disallow" ->
  padded node (markAt ruleType expression node).
Proof.
  intros Hna Hnd. revert node.
  induction expression as [|c rest IH]; intros node; simpl.
  - rewrite mark_invalid by assumption. apply padded_refl.
  - constructor; try reflexivity.
    + intros c' x Hx. rewrite children_setChild.
      destruct (decide (c = c')) as [<-|Hne].
      * eexists. split; [reflexivity|].
        replace (enter node c) with x
          by (unfold enter; rewrite Hx; reflexivity).
        apply IH.
      * exists x. split; [exact Hx | apply padded_refl].
    + intros c' y Hx. rewrite children_setChild.
      destruct (decide (c = c')) as [<-|Hne]; [|congruence].
      intros [= <-].
      replace (enter node c) with (newNode (String c EmptyString))
        by (unfold enter; rewrite Hx; reflexivity).
      apply (padded_flagless _ _ (IH _)). apply flagless_newNode.
Qed.

Lemma padded_addFrom ruleType expression a b :
  padded a b ->
  padded (addFrom ruleType expression a).1 (addFrom ruleType expression b).1.
Proof.
  intros H. rewrite !addFrom_tree.
  destruct expression; [exact H | apply padded_markAt; exact H].
Qed.

Lemma padded_insertAll rules (s t : ExpressionTree.t) :
  padded (ExpressionTree.root s) (ExpressionTree.root t) ->
  padded (ExpressionTree.root (insertAll s rules))
         (ExpressionTree.root (insertAll t rules)).
Proof.
  revert s t. induction rules as [|r rules IH]; intros s t H; [exact H|].
  rewrite !insertAll_cons. apply IH.
  rewrite !addExpression_root. apply padded_addFrom. exact H.
Qed.

(** Evaluation does not see the padding. *)
Lemma padded_evaluateAt D b :
  forall a, padded a b ->
  forall expression v, evaluateAt D a expression v = evaluateAt D b expression v.
Proof.
  induction b as [b IH] using ExpressionNode_child_ind.
  intros a H expression v. destruct H as [a b Ha Hd Hsome Hnone].
  assert (Hkey : forall c,
    (exists x y, children a !! c = Some x /\ children b !! c = Some y /\
                 padded x y /\
                 forall e u, evaluateAt D x e u = evaluateAt D y e u) \/
    (children a !! c = None /\ children b !! c = None) \/
    (exists y, children a !! c = None /\ children b !! c = Some y /\
               flagless y)).
  { intros c. destruct (children a !! c) as [x|] eqn:Hx.
    - left. destruct (Hsome c x Hx) as [y [Hy Hxy]].
      exists x, y. split; [reflexivity|]. split; [exact Hy|].
      split; [exact Hxy|]. intros e u. apply (IH c y Hy x Hxy).
    - right. destruct (children b !! c) as [y|] eqn:Hy.
      + right. exists y. split; [reflexivity|]. split; [reflexivity|].
        exact (Hnone c y Hx Hy).
      + left. split; reflexivity. }
  assert (Hfold : foldFlags a v = foldFlags b v).
  { unfold foldFlags. rewrite Ha, Hd. reflexivity. }
  destruct expression as [|c rest].
  - rewrite !evaluateAt_empty.
    assert (Hanchor : anchorCheck a EmptyString = anchorCheck b EmptyString).
    { unfold anchorCheck.
      destruct (Hkey "$"%char) as [[x [y [-> [-> [Hxy _]]]]]|[[-> ->]|[y [-> [-> Hy]]]]].
      - destruct Hxy as [x y Hxa Hxd _ _]. rewrite Hxa, Hxd. reflexivity.
      - reflexivity.
      - destruct (flagless_flags y Hy) as [-> ->]. reflexivity. }
    rewrite Hanchor. unfold baseCase. rewrite Ha, Hd. reflexivity.
  - rewrite !evaluateAt_cons, Hfold. cbv zeta.
    assert (Hw : wildcardBranch D (evaluateAt D <$> children a !! "*"%char)
                   (String c rest) (foldFlags b v) =
                 wildcardBranch D (evaluateAt D <$> children b !! "*"%char)
                   (String c rest) (foldFlags b v)).
    { destruct (Hkey "*"%char) as [[x [y [-> [-> [_ Hxy]]]]]|[[-> ->]|[y [-> [-> Hy]]]]].
      - apply (wildcardBranch_ext D (evaluateAt D x) (evaluateAt D y)). exact Hxy.
      - reflexivity.
      - change (evaluateAt D <$> Some y) with (Some (evaluateAt D y)).
        rewrite (wildcardBranch_ext D _ (fun _ u => u)).
        + rewrite wildcardBranch_const. reflexivity.
        + intros e u. apply flagless_evaluateAt. exact Hy. }
    rewrite Hw.
    destruct (Hkey c) as [[x [y [-> [-> [_ Hxy]]]]]|[[-> ->]|[y [-> [-> Hy]]]]].
    + apply Hxy.
    + reflexivity.
    + symmetry. apply flagless_evaluateAt. exact Hy.
Qed.

(** ** Where insertion puts nodes and flags *)

Lemma flagsAt_enter node c path :
  flagsAt path (enter node c) = flagsAt (String c path) node.
Proof.
  rewrite flagsAt_cons. unfold enter.
  destruct (children node !! c); [reflexivity | apply flagless_newNode].
Qed.

Lemma flagsAt_mark ruleType node path :
  flagsAt path (mark ruleType node) =
    match path with
    | EmptyString =>
        (allowFlag node || bool_decide (ruleType = "allow"),
         disallowFlag node || bool_decide (ruleType = "disallow"))
    | _ => flagsAt path node
    end.
Proof.
  destruct path as [|c rest].
  - rewrite flagsAt_empty, mark_allowFlag, mark_disallowFlag. reflexivity.
  - rewrite !flagsAt_cons, mark_children. reflexivity.
Qed.

(** The walk of [expression] raises one flag, at the end of [expression]. *)
Lemma flagsAt_markAt ruleType expression node path :
  flagsAt path (markAt ruleType expression node) =
    if decide (path = expression)
    then ((flagsAt path node).1 || bool_decide (ruleType = "allow"),
          (flagsAt path node).2 || bool_decide (ruleType = "disallow"))
    else flagsAt path node.
Proof.
  revert node path. induction expression as [|c rest IH]; intros node path.
  - simpl markAt. rewrite flagsAt_mark.
    destruct path as [|c' rest'].
    + rewrite decide_True by reflexivity. reflexivity.
    + rewrite decide_False by discriminate. reflexivity.
  - simpl markAt. destruct path as [|c' rest'].
    + rewrite decide_False by discriminate. reflexivity.
    + rewrite flagsAt_cons, children_setChild.
      destruct (decide (c = c')) as [<-|Hne].
      * rewrite IH, flagsAt_enter.
        destruct (decide (rest' = rest)) as [->|Hr].
        -- rewrite decide_True by reflexivity. reflexivity.
        -- rewrite decide_False by congruence. reflexivity.
      * rewrite decide_False by congruence. rewrite flagsAt_cons. reflexivity.
Qed.

Lemma flagsAt_addFrom ruleType expression node path :
  flagsAt path (addFrom ruleType expression node).1 =
    if decide (path = expression /\ expression <> EmptyString)
    then ((flagsAt path node).1 || bool_decide (ruleType = "allow"),
          (flagsAt path node).2 || bool_decide (ruleType = "disallow"))
    else flagsAt path node.
Proof.
  rewrite addFrom_tree. destruct expression as [|c rest].
  - rewrite decide_False by tauto. reflexivity.
  - rewrite flagsAt_markAt.
    destruct (decide (path = String c rest)) as [->|Hne].
    + rewrite decide_True by (split; [reflexivity | discriminate]). reflexivity.
    + rewrite decide_False by tauto. reflexivity.
Qed.

(** The flags of a tree after a sequence of insertions: those it had,
    and one for each rule inserted with a non-empty pattern. *)
Lemma flagsAt_insertAll rules this path :
  flagsAt path (ExpressionTree.root (insertAll this rules)) =
    match path with
    | EmptyString => flagsAt path (ExpressionTree.root this)
    | _ => ((flagsAt path (ExpressionTree.root this)).1
              || hasRule path "allow" rules,
            (flagsAt path (ExpressionTree.root this)).2
              || hasRule path "disallow" rules)
    end.
Proof.
  revert this. induction rules as [|[e k] rules IH]; intros this.
  - simpl. destruct path; [reflexivity|].
    rewrite !orb_false_r. destruct (flagsAt _ _); reflexivity.
  - rewrite insertAll_cons, IH, addExpression_root. simpl fst. simpl snd.
    rewrite flagsAt_addFrom.
    destruct path as [|c rest].
    + rewrite decide_False; [reflexivity|]. intros [<- H]. apply H. reflexivity.
    + unfold hasRule. simpl existsb.
      destruct (flagsAt (String c rest) (ExpressionTree.root this)) as [a d].
      destruct (decide (String c rest = e /\ e <> EmptyString)) as [[<- _]|Hne];
        simpl fst; simpl snd; repeat case_bool_decide; simplify_eq;
        try (exfalso; apply Hne; split; [reflexivity | discriminate]);
        destruct a, d; simpl; try reflexivity;
        rewrite ?orb_true_r; reflexivity.
Qed.

(** Every prefix of an inserted pattern has its node. *)
Lemma nodeAt_markAt_prefix ruleType prefix rest node :
  is_Some (nodeAt prefix (markAt ruleType (prefix ++ rest) node)).
Proof.
  revert node. induction prefix as [|c prefix IH]; intros node.
  - simpl. eexists. reflexivity.
  - change (String c prefix ++ rest) with (String c (prefix ++ rest)).
    simpl markAt. simpl nodeAt. rewrite lookup_insert_eq. apply IH.
Qed.

Lemma flagsAt_app prefix rest node m :
  nodeAt prefix node = Some m ->
  flagsAt (prefix ++ rest) node = flagsAt rest m.
Proof.
  revert node. induction prefix as [|c prefix IH]; intros node H.
  - simpl in H. injection H as ->. reflexivity.
  - change (String c prefix ++ rest) with (String c (prefix ++ rest)).
    rewrite flagsAt_cons. simpl in H.
    destruct (children node !! c) as [child|]; [|discriminate].
    apply IH. exact H.
Qed.

Lemma append_ne_self (s : string) (c : ascii) (t : string) : s ++ String c t <> s.
Proof.
  induction s as [|c' s IH]; intros H.
  - discriminate H.
  - change (String c' (s ++ String c t) = String c' s) in H.
    injection H as H. exact (IH H).
Qed.

(** ** Evaluation along a path of the tree *)

(** A path that spells a branch of the tree is walked to its end: the
    answer is that of the base case there, provided no flagged [$] node
    hangs below. *)
Lemma evaluateAt_exact D path :
  forall node m v,
    nodeAt path node = Some m ->
    flagsAt "$" m = (false, false) ->
    exists v', evaluateAt D node path v = baseCase D m v'.
Proof.
  induction path as [|c rest IH]; intros node m v Hm Hflags.
  - simpl in Hm. injection Hm as ->. exists v.
    rewrite evaluateAt_empty.
    rewrite flagsAt_cons in Hflags. unfold anchorCheck.
    destruct (children m !! "$"%char) as [x|]; [|reflexivity].
    rewrite flagsAt_empty in Hflags. injection Hflags as -> ->. reflexivity.
  - rewrite evaluateAt_cons. cbv zeta. simpl in Hm.
    destruct (children node !! c) as [child|]; [|discriminate].
    apply (IH child m _ Hm Hflags).
Qed.

(** A node just created hands the verdict back. *)
Lemma evaluateAt_newNode D value expression v :
  evaluateAt D (newNode value) expression v = v.
Proof. apply flagless_evaluateAt. apply flagless_newNode. Qed.

(** ** The bound on the depth of the recursion *)

Lemma mapM_total {A B : Type} (f : A -> option B) (g : A -> B) (l : list A) :
  (forall x, f x = Some (g x)) -> mapM f l = Some (map g l).
Proof.
  intros H. apply mapM_Some. induction l as [|x l IH]; constructor.
  - apply H.
  - exact IH.
Qed.

(** With as much fuel as the tree is high, the bounded evaluation
    returns, and returns the value of [__evaluateExpression]. *)
Lemma evaluateFuel_enough fuel D :
  forall node expression v,
    height node <= fuel ->
    evaluateFuel fuel D expression node v =
      Some (__evaluateExpression D expression node v).
Proof.
  unfold __evaluateExpression.
  induction fuel as [|fuel IH]; intros node expression v Hh.
  - pose proof (height_pos node). lia.
  - rewrite evaluateAt_unfold. simpl evaluateFuel.
    destruct (anchorCheck node expression); [reflexivity|].
    destruct (Nat.eqb (String.length expression) 0); [reflexivity|].
    cbv zeta.
    assert (Hw :
      match children node !! "*"%char with
      | Some wildcardStartNode =>
          veredicts ←
            mapM (fun i => evaluateFuel fuel D (substr expression i)
                             wildcardStartNode (foldFlags node v))
                 (wildcardOffsets expression);
          Some (scanVeredicts D veredicts (foldFlags node v))
      | None => Some (foldFlags node v)
      end =
      Some (wildcardBranch D (evaluateAt D <$> children node !! "*"%char)
              expression (foldFlags node v))).
    { destruct (children node !! "*"%char) as [w|] eqn:Hwc; [|reflexivity].
      rewrite (mapM_total _
                 (fun i => evaluateAt D w (substr expression i)
                             (foldFlags node v))).
      - reflexivity.
      - intros i. apply IH. pose proof (height_child _ _ _ Hwc). lia. }
    rewrite Hw. simpl. unfold literalBranch.
    destruct expression as [|c rest]; [reflexivity|].
    destruct (children node !! c) as [child|] eqn:Hc; [|reflexivity].
    simpl. apply IH. pose proof (height_child _ _ _ Hc). lia.
Qed.

(** Every recursive call is on a node that is strictly deeper. *)
Lemma subcall_height callee caller :
  subcall callee caller -> height callee.2 < height caller.2.
Proof.
  intros H. destruct H as [e node w i _ Hw _ | c rest node child Hc]; simpl.
  - exact (height_child _ _ _ Hw).
  - exact (height_child _ _ _ Hc).
Qed.

Lemma subcall_wf : well_founded subcall.
Proof.
  apply (well_founded_lt_compat _ (fun call => height call.2)).
  intros x y. apply subcall_height.
Qed.

Lemma substr_length expression i :
  String.length (substr expression i) = String.length expression - i.
Proof.
  revert i. induction expression as [|c rest IH]; intros [|i]; simpl; try reflexivity.
  apply IH.
Qed.

(** ** The scan of the collected verdicts *)

Lemma scanVeredicts_first D veredicts newVeredict :
  (exists i v, nth_error veredicts i = Some v /\ v <> D /\
               (forall j, j < i -> nth_error veredicts j = Some D) /\
               scanVeredicts D veredicts newVeredict = v) \/
  ((forall i v, nth_error veredicts i = Some v -> v = D) /\
   scanVeredicts D veredicts newVeredict = newVeredict).
Proof.
  induction veredicts as [|x l IH]; simpl.
  - right. split; [|reflexivity]. intros [|i] v H; discriminate.
  - destruct (Bool.eqb x D) eqn:Hx; simpl.
    + apply Bool.eqb_prop in Hx. subst x.
      destruct IH as [[i [v [Hi [Hv [Hj Hs]]]]]|[Hall Hs]].
      * left. exists (S i), v. repeat split; try assumption.
        intros [|j] Hlt; [reflexivity|]. simpl. apply Hj. lia.
      * right. split; [|exact Hs].
        intros [|i] v H; simpl in H; [congruence|]. exact (Hall i v H).
    + left. exists 0, x. repeat split.
      * intros ->. rewrite Bool.eqb_reflx in Hx. discriminate.
      * intros j Hj. lia.
Qed.

(** ** The facade over the tree *)

Lemma addPath_trie this path ruleType :
  Permissions.trie (Permissions.addPath this path ruleType).1 =
    (ExpressionTree.addExpression (Permissions.trie this) path ruleType).1.
Proof.
  unfold Permissions.addPath.
  destruct (ExpressionTree.addExpression _ _ _). reflexivity.
Qed.

Lemma addPath_default this path ruleType :
  Permissions.DEFAULT_PERMISSION (Permissions.addPath this path ruleType).1 =
    Permissions.DEFAULT_PERMISSION this.
Proof.
  unfold Permissions.addPath.
  destruct (ExpressionTree.addExpression _ _ _). reflexivity.
Qed.

Lemma addPaths_trie rules this :
  Permissions.trie (addPaths this rules) = insertAll (Permissions.trie this) rules.
Proof.
  revert this. induction rules as [|r rules IH]; intros this; [reflexivity|].
  simpl. change (fold_left _ rules ?p) with (addPaths p rules).
  rewrite IH, addPath_trie. reflexivity.
Qed.

Lemma addPaths_default rules this :
  Permissions.DEFAULT_PERMISSION (addPaths this rules) =
    Permissions.DEFAULT_PERMISSION this.
Proof.
  revert this. induction rules as [|r rules IH]; intros this; [reflexivity|].
  simpl. change (fold_left _ rules ?p) with (addPaths p rules).
  rewrite IH. apply addPath_default.
Qed.

(** An exact rule that goes against the default decides its own
    pattern, unless the pattern is also anchored: the base case reads
    only the flag that disagrees with the default. *)
Lemma exact_rule_against_default (D : bool) (rules : list rule) (c : ascii)
    (rest : string) :
  let pattern := String c rest in
  hasRule pattern (if D then "disallow" else "allow") rules = true ->
  hasRule (pattern ++ "$") "allow" rules = false ->
  hasRule (pattern ++ "$") "disallow" rules = false ->
  ExpressionTree.evaluateExpression
    (insertAll (ExpressionTree.new D) rules) pattern = negb D.
Proof.
  intros pattern Hrule Hna Hnd.
  set (this := insertAll (ExpressionTree.new D) rules).
  pose proof (flagsAt_insertAll rules (ExpressionTree.new D) pattern) as Hflags.
  fold this in Hflags. unfold pattern at 2 in Hflags.
  change (flagsAt pattern (ExpressionTree.root (ExpressionTree.new D)))
    with (flagsAt pattern (newNode EmptyString)) in Hflags.
  rewrite flagless_newNode in Hflags. simpl in Hflags.
  destruct (nodeAt pattern (ExpressionTree.root this)) as [m|] eqn:Hm.
  - assert (Hanchor : flagsAt "$" m = (false, false)).
    { rewrite <- (flagsAt_app pattern "$" _ m Hm). unfold this.
      rewrite flagsAt_insertAll.
      change (flagsAt (pattern ++ "$") (ExpressionTree.root (ExpressionTree.new D)))
        with (flagsAt (pattern ++ "$") (newNode EmptyString)).
      rewrite flagless_newNode, Hna, Hnd. reflexivity. }
    unfold ExpressionTree.evaluateExpression, __evaluateExpression.
    destruct (evaluateAt_exact
                (ExpressionTree.DEFAULT_PERMISSION this) pattern
                (ExpressionTree.root this) m
                (ExpressionTree.DEFAULT_PERMISSION this) Hm Hanchor) as [v' ->].
    unfold this at 1. rewrite insertAll_default. simpl.
    unfold flagsAt in Hflags. rewrite Hm in Hflags.
    injection Hflags as Ha Hd. unfold baseCase.
    destruct D; [rewrite Hd, Hrule | rewrite Ha, Hrule]; reflexivity.
  - unfold flagsAt in Hflags. rewrite Hm in Hflags.
    injection Hflags as Ha Hd. destruct D; congruence.
Qed.

(** * The claims *)

(** C1 (longest-match precedence at the public interface).  After
    [disallow("/a")] then [allow("/a/b")], the claim wants
    [isAllowed("/a/b")] true and [isAllowed("/a/x")] false under either
    default.  The code gives that under the default [false]; under the
    default [true], the one the facade uses, [isAllowed("/a/b")] is
    false: the base case at the end of the path reads only the disallow
    flag and hands back the verdict of the shorter rule.  A path that goes
    on past the longer rule, like ["/a/b/"], is allowed under either
    default. *)
Theorem longest_match_at_exact_end :
  let rules : list rule := [("/a", "disallow"); ("/a/b", "allow")] in
  Permissions.isAllowed (addPaths Permissions.new rules) "/a/b" = false /\
  ExpressionTree.evaluateExpression
    (insertAll (ExpressionTree.new true) rules) "/a/b" = false /\
  ExpressionTree.evaluateExpression
    (insertAll (ExpressionTree.new false) rules) "/a/b" = true /\
  (forall D, ExpressionTree.evaluateExpression
               (insertAll (ExpressionTree.new D) rules) "/a/x" = false) /\
  (forall D, ExpressionTree.evaluateExpression
               (insertAll (ExpressionTree.new D) rules) "/a/b/" = true).
Proof.
  repeat split; try (vm_compute; reflexivity);
    intros []; vm_compute; reflexivity.
Qed.

(** C2 (equal-specificity tie).  After a non-empty pattern [p] is
    inserted both as allow and as disallow, in either order, the claim
    wants [isAllowed(p)] true under either default.  The code answers
    with the negation of the default: true under the default [false],
    false under the default [true], where the base case reads the
    disallow flag alone.  A path that goes on past the node of the two
    rules, like ["/ab"] for the pattern ["/a"], is allowed under either
    default. *)
Theorem tie_at_exact_end (c : ascii) (rest : string) (D : bool) :
  let p := String c rest in
  ExpressionTree.evaluateExpression
    (insertAll (ExpressionTree.new D) [(p, "allow"); (p, "disallow")]) p
    = negb D /\
  ExpressionTree.evaluateExpression
    (insertAll (ExpressionTree.new D) [(p, "disallow"); (p, "allow")]) p
    = negb D /\
  Permissions.isAllowed
    (addPaths Permissions.new [("/a", "allow"); ("/a", "disallow")]) "/a"
    = false /\
  ExpressionTree.evaluateExpression
    (insertAll (ExpressionTree.new D) [("/a", "allow"); ("/a", "disallow")])
    "/ab" = true.
Proof.
  intros p.
  cut (ExpressionTree.evaluateExpression
         (insertAll (ExpressionTree.new D) [(p, "allow"); (p, "disallow")]) p
         = negb D /\
       ExpressionTree.evaluateExpression
         (insertAll (ExpressionTree.new D) [(p, "disallow"); (p, "allow")]) p
         = negb D).
  { intros [H1 H2]. split; [exact H1|]. split; [exact H2|].
    split; [vm_compute; reflexivity|]. destruct D; vm_compute; reflexivity. }
  assert (Hne : forall k k' : string, (p, k) <> (p ++ "$", k')).
  { intros k k' [= H _]. symmetry in H. exact (append_ne_self _ _ _ H). }
  subst p.
  split; apply exact_rule_against_default;
    unfold hasRule; simpl existsb;
    repeat case_bool_decide; destruct D; simpl;
    try reflexivity; try congruence;
    exfalso;
    match goal with
    | H : (_, _) = (_ ++ _, _) |- _ => exact (Hne _ _ H)
    end.
Qed.

(** The wildcard step as the source runs it.  At a node with a [*]
    child and a non-empty remaining path [r], the evaluation collects
    one verdict per start offset [i] with [0 <= i < len(r)], in
    increasing order: the verdict of the suffix of [r] at [i] on the
    wildcard child under the running verdict (the flags of the node
    already folded in).  The first collected verdict that differs from
    the default becomes the running verdict; when all equal the default
    it is unchanged; the literal branch continues with it. *)
Theorem wildcard_step_nonempty_suffixes (D : bool)
    (node wildcardStartNode : ExpressionNode) (r : string)
    (currentVeredict : bool) :
  children node !! "*"%char = Some wildcardStartNode ->
  r <> EmptyString ->
  WildcardStepAt offsetsExclusive D node wildcardStartNode r currentVeredict.
Proof.
  intros Hw Hr. destruct r as [|c rest]; [congruence|].
  set (r := String c rest).
  set (nv := foldFlags node currentVeredict).
  set (veredicts :=
         map (fun i => evaluateAt D wildcardStartNode (substr r i) nv)
             (wildcardOffsets r)).
  exists veredicts, (scanVeredicts D veredicts nv).
  split; [|split; [|split]].
  - unfold veredicts, wildcardOffsets, offsetsExclusive.
    rewrite length_map, length_seq. reflexivity.
  - intros i Hi. unfold veredicts, wildcardOffsets, offsetsExclusive in *.
    rewrite nth_error_map, nth_error_seq.
    destruct (Nat.ltb_spec i (String.length r)); [reflexivity | lia].
  - destruct (scanVeredicts_first D veredicts nv)
      as [[i [v [Hi [Hv [Hj Hs]]]]]|[Hall Hs]].
    + left. exists i, v. repeat split; assumption.
    + right. split; assumption.
  - unfold __evaluateExpression, r. rewrite evaluateAt_cons, Hw. cbv zeta.
    rewrite substr_1. fold r. fold nv.
    change (wildcardBranch D (evaluateAt D <$> Some wildcardStartNode) r nv)
      with (scanVeredicts D veredicts nv).
    reflexivity.
Qed.

(** The step at the root of the tree of [disallow("*$")], on the path
    ["b"]. *)
Lemma wildcard_step_nonempty_suffixes_witness :
  let wildcardStartNode := markAt "disallow" "$" (newNode "*") in
  let node := setChild (newNode EmptyString) "*" wildcardStartNode in
  children node !! "*"%char = Some wildcardStartNode /\
  "b" <> EmptyString /\
  WildcardStepAt offsetsExclusive true node wildcardStartNode "b" true.
Proof.
  intros wildcardStartNode node.
  assert (Hw : children node !! "*"%char = Some wildcardStartNode)
    by apply lookup_insert_eq.
  assert (Hr : "b" <> EmptyString) by discriminate.
  split; [exact Hw|]. split; [exact Hr|].
  exact (wildcard_step_nonempty_suffixes true node wildcardStartNode "b" true
           Hw Hr).
Defined.

(** With the offsets [0 <= i <= len(r)] the step is not the one the
    source runs: after [disallow("*$")] under the default [true], the
    path ["b"] at the root collects the single verdict of the suffix
    ["b"], which is the default, and is allowed; with the empty suffix
    collected as well, the anchor below the wildcard would make the
    second verdict false and the path would be refused. *)
Lemma wildcard_step_inclusive_counterexample :
  ~ (forall (D : bool) (node wildcardStartNode : ExpressionNode) (r : string)
            (currentVeredict : bool),
        children node !! "*"%char = Some wildcardStartNode ->
        r <> EmptyString ->
        WildcardStepAt offsetsInclusive D node wildcardStartNode r
                       currentVeredict).
Proof.
  intros claim.
  pose (wildcardStartNode := markAt "disallow" "$" (newNode "*")).
  pose (node := setChild (newNode EmptyString) "*" wildcardStartNode).
  assert (Hw : children node !! "*"%char = Some wildcardStartNode)
    by apply lookup_insert_eq.
  destruct (claim true node wildcardStartNode "b" true Hw ltac:(discriminate))
    as [veredicts [nv [_ [Hnth [Hscan Heval]]]]].
  assert (H0 : nth_error veredicts 0 = Some true).
  { rewrite (Hnth 0) by (unfold offsetsInclusive; simpl; lia).
    vm_compute. reflexivity. }
  assert (H1 : nth_error veredicts 1 = Some false).
  { rewrite (Hnth 1) by (unfold offsetsInclusive; simpl; lia).
    vm_compute. reflexivity. }
  assert (Hcode : __evaluateExpression true "b" node true = true)
    by (vm_compute; reflexivity).
  assert (Hnv : nv = true).
  { rewrite Heval in Hcode. vm_compute in Hcode. exact Hcode. }
  destruct Hscan as [[i [v [Hi [Hv [_ Hnew]]]]]|[Hall _]].
  - subst v. congruence.
  - specialize (Hall 1 false H1). discriminate.
Qed.

(** C4 (totality and termination of evaluation).  On the tree built by
    any sequence of insertions, [evaluateExpression] returns a boolean
    for every path, the empty one included: the evaluation that follows
    the recursive calls of the source with the height of the tree as
    bound on their nesting returns that boolean.  The calls are
    well-founded: each one, wildcard or literal, is on a child of the
    node, strictly deeper in the tree, and the literal one is on a path
    one character shorter. *)
Theorem evaluation_total (D : bool) (rules : list rule) (path : string) :
  let this := insertAll (ExpressionTree.new D) rules in
  let facade := addPaths Permissions.new rules in
  (exists veredict : bool,
      ExpressionTree.evaluateExpression this path = veredict /\
      evaluateFuel (height (ExpressionTree.root this))
                   (ExpressionTree.DEFAULT_PERMISSION this) path
                   (ExpressionTree.root this)
                   (ExpressionTree.DEFAULT_PERMISSION this) = Some veredict) /\
  (exists veredict : bool,
      Permissions.isAllowed facade path = veredict /\
      evaluateFuel (height (ExpressionTree.root (Permissions.trie facade)))
                   (ExpressionTree.DEFAULT_PERMISSION (Permissions.trie facade))
                   path
                   (ExpressionTree.root (Permissions.trie facade))
                   (ExpressionTree.DEFAULT_PERMISSION (Permissions.trie facade))
        = Some veredict) /\
  well_founded subcall /\
  (forall callee caller,
      subcall callee caller -> height callee.2 < height caller.2) /\
  (forall (character : ascii) (rest : string),
      String.length (substr (String character rest) 1)
        < String.length (String character rest)).
Proof.
  intros this facade. split; [|split; [|split; [|split]]].
  - exists (ExpressionTree.evaluateExpression this path).
    split; [reflexivity|]. apply evaluateFuel_enough. lia.
  - exists (Permissions.isAllowed facade path).
    split; [reflexivity|]. apply evaluateFuel_enough. lia.
  - exact subcall_wf.
  - exact subcall_height.
  - intros character rest. rewrite substr_length. simpl. lia.
Qed.

(** C5 (anchor exactness with absolute priority).  After
    [disallow("/a$")] alone, under either default, [isAllowed("/a")] is
    false and [isAllowed("/ab")] is the default.  At any node with a [$]
    child that carries a flag, the empty remaining path is answered by
    that child before anything else is looked at: true when its allow
    flag is set, false otherwise, whatever the flags of the node, its
    other children, the running verdict and the default. *)
Theorem anchor_exactness :
  (forall D : bool,
      let this := insertAll (ExpressionTree.new D) [("/a$", "disallow")] in
      ExpressionTree.evaluateExpression this "/a" = false /\
      ExpressionTree.evaluateExpression this "/ab" = D) /\
  (forall (D : bool) (node endOfLineNode : ExpressionNode)
          (currentVeredict : bool),
      children node !! "$"%char = Some endOfLineNode ->
      allowFlag endOfLineNode || disallowFlag endOfLineNode = true ->
      __evaluateExpression D EmptyString node currentVeredict = allowFlag endOfLineNode).
Proof.
  split.
  - intros []; split; vm_compute; reflexivity.
  - intros D node e v He Hflag. unfold __evaluateExpression.
    rewrite evaluateAt_empty. unfold anchorCheck. rewrite He. simpl.
    destruct (allowFlag e); [reflexivity|].
    simpl in Hflag. rewrite Hflag. reflexivity.
Qed.

(** The anchor check at a node that is itself allowed and whose [$]
    child is disallowed. *)
Lemma anchor_exactness_witness :
  let endOfLineNode := setDisallowFlag (newNode "$") in
  let node := setAllowFlag (setChild (newNode "a") "$" endOfLineNode) in
  children node !! "$"%char = Some endOfLineNode /\
  allowFlag endOfLineNode || disallowFlag endOfLineNode = true /\
  __evaluateExpression true EmptyString node true = allowFlag endOfLineNode.
Proof.
  intros endOfLineNode node.
  assert (He : children node !! "$"%char = Some endOfLineNode)
    by apply lookup_insert_eq.
  assert (Hflag : allowFlag endOfLineNode || disallowFlag endOfLineNode = true)
    by reflexivity.
  split; [exact He|]. split; [exact Hflag|].
  exact (proj2 anchor_exactness true node endOfLineNode true He Hflag).
Defined.

(** C6 (evaluation of the empty path), as the code has it.  On the tree
    built by any sequence of insertions, the flags of the root are never
    set, and [isAllowed] of the empty path is the default unless a rule with the
    pattern ["$"] has been inserted: the anchor check at the root then
    answers first, true when ["$"] was inserted as allow, false when it
    was inserted as disallow only. *)
Theorem empty_path_default_or_anchor (D : bool) (rules : list rule) :
  let this := insertAll (ExpressionTree.new D) rules in
  allowFlag (ExpressionTree.root this) = false /\
  disallowFlag (ExpressionTree.root this) = false /\
  ExpressionTree.evaluateExpression this EmptyString =
    if hasRule "$" "allow" rules then true
    else if hasRule "$" "disallow" rules then false
    else D.
Proof.
  intros this.
  pose proof (flagsAt_insertAll rules (ExpressionTree.new D) EmptyString) as Hroot.
  fold this in Hroot. rewrite !flagsAt_empty in Hroot. simpl in Hroot.
  injection Hroot as Ha Hd.
  pose proof (flagsAt_insertAll rules (ExpressionTree.new D) "$") as Hanchor.
  fold this in Hanchor.
  change (flagsAt "$" (ExpressionTree.root (ExpressionTree.new D)))
    with (flagsAt "$" (newNode EmptyString)) in Hanchor.
  rewrite flagless_newNode in Hanchor. simpl in Hanchor.
  split; [exact Ha|]. split; [exact Hd|].
  unfold ExpressionTree.evaluateExpression, __evaluateExpression.
  rewrite evaluateAt_empty. unfold anchorCheck.
  rewrite flagsAt_cons in Hanchor.
  destruct (children (ExpressionTree.root this) !! "$"%char) as [e|].
  - rewrite flagsAt_empty in Hanchor. injection Hanchor as -> ->.
    simpl. rewrite !andb_true_r.
    destruct (hasRule "$" "allow" rules); [reflexivity|].
    destruct (hasRule "$" "disallow" rules); [reflexivity|].
    unfold baseCase. rewrite Ha, Hd. unfold this.
    rewrite insertAll_default. simpl. destruct D; reflexivity.
  - injection Hanchor as <- <-.
    unfold baseCase. rewrite Ha, Hd. unfold this.
    rewrite insertAll_default. simpl. destruct D; reflexivity.
Qed.

(** C6 as stated fails: after [addPath("$", "disallow")] on the facade,
    whose default is [true], [isAllowed] of the empty path is false. *)
Lemma empty_path_counterexample :
  let this := addPaths Permissions.new [("$", "disallow")] in
  Permissions.isAllowed this EmptyString <> Permissions.DEFAULT_PERMISSION this.
Proof. vm_compute. discriminate. Qed.

(** C7 (a rule type outside allow and disallow).  [addExpression] with a
    non-empty pattern and such a rule type sends one line to
    [console.error]; afterwards every prefix of the pattern has its node;
    the flags read at every path are those read before the call, false
    where the node is new; the default is unchanged; and after any
    further insertions every path is evaluated as if the call had not
    been made, on the tree and on the facade. *)
Theorem invalid_ruleType_is_noop (this : ExpressionTree.t)
    (expression ruleType : string) :
  expression <> EmptyString ->
  ruleType <> "allow" ->
  ruleType <> "disallow" ->
  let after := ExpressionTree.addExpression this expression ruleType in
  after.2 = [ruleTypeError] /\
  (forall prefix rest,
      expression = prefix ++ rest ->
      is_Some (nodeAt prefix (ExpressionTree.root after.1))) /\
  (forall path,
      flagsAt path (ExpressionTree.root after.1) =
      flagsAt path (ExpressionTree.root this)) /\
  ExpressionTree.DEFAULT_PERMISSION after.1 =
    ExpressionTree.DEFAULT_PERMISSION this /\
  (forall (later : list rule) (path : string),
      ExpressionTree.evaluateExpression (insertAll after.1 later) path =
      ExpressionTree.evaluateExpression (insertAll this later) path) /\
  (forall (facade : Permissions.t) (later : list rule) (path : string),
      Permissions.trie facade = this ->
      Permissions.isAllowed
        (addPaths (Permissions.addPath facade expression ruleType).1 later)
        path =
      Permissions.isAllowed (addPaths facade later) path).
Proof.
  intros Hne Hna Hnd after.
  assert (Hroot : ExpressionTree.root after.1 =
                  markAt ruleType expression (ExpressionTree.root this)).
  { unfold after. rewrite addExpression_root, addFrom_tree.
    destruct expression; [congruence | reflexivity]. }
  assert (Hpad : padded (ExpressionTree.root this) (ExpressionTree.root after.1)).
  { rewrite Hroot. apply padded_markAt_invalid; assumption. }
  assert (Hlater : forall (later : list rule) (path : string),
      ExpressionTree.evaluateExpression (insertAll after.1 later) path =
      ExpressionTree.evaluateExpression (insertAll this later) path).
  { intros later path.
    unfold ExpressionTree.evaluateExpression, __evaluateExpression.
    rewrite !insertAll_default.
    replace (ExpressionTree.DEFAULT_PERMISSION after.1)
      with (ExpressionTree.DEFAULT_PERMISSION this)
      by (symmetry; apply addExpression_default).
    symmetry.
    apply padded_evaluateAt. apply padded_insertAll. exact Hpad. }
  split; [|split; [|split; [|split; [|split]]]].
  - unfold after. rewrite addExpression_console, addFrom_console.
    destruct expression; [congruence|].
    destruct (decide _); [contradiction|]. destruct (decide _); [contradiction|].
    reflexivity.
  - intros prefix rest ->. rewrite Hroot. apply nodeAt_markAt_prefix.
  - intros path. symmetry. apply padded_flagsAt. exact Hpad.
  - apply addExpression_default.
  - exact Hlater.
  - intros facade later path Hfacade. unfold Permissions.isAllowed.
    rewrite !addPaths_trie, addPath_trie, Hfacade. apply Hlater.
Qed.

(** [addExpression("/a/b", "noindex")] after [disallow("/a")]. *)
Lemma invalid_ruleType_is_noop_witness :
  let this := insertAll (ExpressionTree.new true) [("/a", "disallow")] in
  let after := ExpressionTree.addExpression this "/a/b" "noindex" in
  "/a/b" <> EmptyString /\ "noindex" <> "allow" /\ "noindex" <> "disallow" /\
  after.2 = [ruleTypeError] /\
  ExpressionTree.evaluateExpression (insertAll after.1 []) "/a/b" =
  ExpressionTree.evaluateExpression (insertAll this []) "/a/b".
Proof.
  intros this after.
  assert (H1 : "/a/b" <> EmptyString) by discriminate.
  assert (H2 : "noindex" <> "allow") by discriminate.
  assert (H3 : "noindex" <> "disallow") by discriminate.
  pose proof (invalid_ruleType_is_noop this "/a/b" "noindex" H1 H2 H3) as H.
  split; [exact H1|]. split; [exact H2|]. split; [exact H3|].
  split; [exact (proj1 H)|].
  exact (proj1 (proj2 (proj2 (proj2 (proj2 H)))) [] "/a/b").
Defined.

(** C8 (insertion-order independence).  Two sequences of insertions that
    are permutations of each other, on matchers with the same default,
    build the same tree, and every path is evaluated alike. *)
Theorem insertion_order_independent (D : bool) (rules rules' : list rule) :
  Permutation rules rules' ->
  insertAll (ExpressionTree.new D) rules =
    insertAll (ExpressionTree.new D) rules' /\
  forall path,
    ExpressionTree.evaluateExpression
      (insertAll (ExpressionTree.new D) rules) path =
    ExpressionTree.evaluateExpression
      (insertAll (ExpressionTree.new D) rules') path.
Proof.
  intros Hperm.
  pose proof (insertAll_Permutation rules rules' Hperm (ExpressionTree.new D))
    as Heq.
  split; [exact Heq|]. intros path. rewrite Heq. reflexivity.
Qed.

(** The two orders of [disallow("/a")] and [allow("/a/b")]. *)
Lemma insertion_order_independent_witness :
  let rules : list rule := [("/a", "disallow"); ("/a/b", "allow")] in
  let rules' : list rule := [("/a/b", "allow"); ("/a", "disallow")] in
  Permutation rules rules' /\
  ExpressionTree.evaluateExpression
    (insertAll (ExpressionTree.new false) rules) "/a/b" =
  ExpressionTree.evaluateExpression
    (insertAll (ExpressionTree.new false) rules') "/a/b".
Proof.
  intros rules rules'.
  assert (Hperm : Permutation rules rules') by apply perm_swap.
  split; [exact Hperm|].
  exact (proj2 (insertion_order_independent false rules rules' Hperm) "/a/b").
Defined.

(** C10 (the facade fixes the default to true).  A new [Permissions]
    has the default [true] and allows every path; no sequence of
    [addPath] calls changes the default, of the facade or of its tree. *)
Theorem fresh_permissions_allow_all :
  Permissions.DEFAULT_PERMISSION Permissions.new = true /\
  (forall path, Permissions.isAllowed Permissions.new path = true) /\
  (forall rules,
      Permissions.DEFAULT_PERMISSION (addPaths Permissions.new rules) = true /\
      ExpressionTree.DEFAULT_PERMISSION
        (Permissions.trie (addPaths Permissions.new rules)) = true).
Proof.
  split; [reflexivity|]. split.
  - intros path. apply evaluateAt_newNode.
  - intros rules. split.
    + apply addPaths_default.
    + rewrite addPaths_trie. apply insertAll_default.
Qed.

(** * Further properties of insertion *)

Lemma mark_idem ruleType node :
  mark ruleType (mark ruleType node) = mark ruleType node.
Proof.
  unfold mark, applyRule.
  destruct (decide (ruleType = "allow")); [reflexivity|].
  destruct (decide (ruleType = "disallow")); reflexivity.
Qed.

Lemma markAt_idem ruleType expression node :
  markAt ruleType expression (markAt ruleType expression node) =
    markAt ruleType expression node.
Proof.
  revert node. induction expression as [|c rest IH]; intros node; simpl.
  - apply mark_idem.
  - rewrite enter_setChild_eq, setChild_setChild_eq, IH. reflexivity.
Qed.

Lemma present_empty node : present EmptyString node = true.
Proof. reflexivity. Qed.

Lemma present_cons c rest node :
  present (String c rest) node =
    match children node !! c with
    | Some child => present rest child
    | None => false
    end.
Proof. unfold present. simpl. destruct (children node !! c); reflexivity. Qed.

Lemma prefix_cons_same c q e : prefix (String c q) (String c e) = prefix q e.
Proof. simpl. destruct (ascii_dec c c); [reflexivity | congruence]. Qed.

Lemma prefix_cons_other c c' q e :
  c <> c' -> prefix (String c' q) (String c e) = false.
Proof. intros H. simpl. destruct (ascii_dec c' c); [congruence | reflexivity]. Qed.

Lemma present_enter node c path :
  present path (enter node c) =
    present (String c path) node
    || match path with EmptyString => true | _ => false end.
Proof.
  rewrite present_cons. unfold enter.
  destruct (children node !! c) as [x|].
  - destruct path; [reflexivity | rewrite orb_false_r; reflexivity].
  - destruct path as [|c' rest]; [reflexivity|].
    rewrite present_cons. simpl. rewrite lookup_empty. reflexivity.
Qed.

(** The nodes after a walk: those there were, and one for each prefix
    of the expression walked. *)
Lemma present_markAt ruleType expression node path :
  present path (markAt ruleType expression node) =
    present path node || prefix path expression.
Proof.
  revert node path. induction expression as [|c rest IH]; intros node path.
  - simpl markAt. destruct path as [|c' rest'].
    + reflexivity.
    + rewrite !present_cons, mark_children. simpl. rewrite orb_false_r.
      reflexivity.
  - simpl markAt. destruct path as [|c' rest']; [reflexivity|].
    rewrite present_cons, children_setChild.
    destruct (decide (c = c')) as [<-|Hne].
    + rewrite IH, present_enter, prefix_cons_same.
      destruct rest' as [|c'' rest'']; [|rewrite orb_false_r; reflexivity].
      replace (prefix EmptyString rest) with true
        by (destruct rest; reflexivity).
      rewrite !orb_true_r. reflexivity.
    + rewrite prefix_cons_other by exact Hne. rewrite orb_false_r.
      rewrite present_cons. reflexivity.
Qed.

Lemma present_addFrom ruleType expression node path :
  present path (addFrom ruleType expression node).1 =
    present path node || prefix path expression.
Proof.
  rewrite addFrom_tree. destruct expression as [|c rest].
  - destruct path; [reflexivity|]. simpl. rewrite orb_false_r. reflexivity.
  - apply present_markAt.
Qed.

Lemma present_insertAll rules this path :
  present path (ExpressionTree.root (insertAll this rules)) =
    present path (ExpressionTree.root this)
    || existsb (fun r => prefix path r.1) rules.
Proof.
  revert this. induction rules as [|r rules IH]; intros this.
  - simpl. rewrite orb_false_r. reflexivity.
  - rewrite insertAll_cons, IH, addExpression_root, present_addFrom.
    simpl. rewrite orb_assoc. reflexivity.
Qed.

(** X1 (what an insertion reports).  [addExpression], and [addPath]
    over it, write one line to the console exactly when the pattern is
    not empty and the rule type is neither allow nor disallow; in every
    other case, the empty pattern with an unknown rule type included,
    nothing is reported. *)
Theorem diagnostic_exactly_when_invalid (this : ExpressionTree.t)
    (facade : Permissions.t) (expression ruleType : string) :
  let reported :=
    if decide (expression <> EmptyString /\ ruleType <> "allow"
               /\ ruleType <> "disallow")
    then [ruleTypeError] else [] in
  (ExpressionTree.addExpression this expression ruleType).2 = reported /\
  (Permissions.addPath facade expression ruleType).2 = reported.
Proof.
  intros reported.
  assert (H : forall node, (addFrom ruleType expression node).2 = reported).
  { intros node. rewrite addFrom_console. unfold reported.
    destruct expression as [|c rest].
    - rewrite decide_False by tauto. reflexivity.
    - destruct (decide (ruleType = "allow")) as [Ha|Ha];
        [rewrite decide_False by tauto; reflexivity|].
      destruct (decide (ruleType = "disallow")) as [Hd|Hd];
        [rewrite decide_False by tauto; reflexivity|].
      rewrite decide_True; [reflexivity|].
      split; [discriminate | split; assumption]. }
  split.
  - rewrite addExpression_console. apply H.
  - unfold Permissions.addPath.
    pose proof (addExpression_console (Permissions.trie facade)
                  expression ruleType) as Hc.
    destruct (ExpressionTree.addExpression (Permissions.trie facade)
                expression ruleType) as [trie' out].
    simpl in *. rewrite Hc. apply H.
Qed.

(** X2 (the flag an insertion writes).  After [addExpression] the
    flags read at the end of the pattern are those read before, with the
    flag of the rule type raised, when the pattern is not empty; the
    flags read at every other path are unchanged; and no flag is ever
    lowered. *)
Theorem insertion_raises_one_flag (this : ExpressionTree.t)
    (expression ruleType path : string) :
  let before := flagsAt path (ExpressionTree.root this) in
  let after :=
    flagsAt path
      (ExpressionTree.root
         (ExpressionTree.addExpression this expression ruleType).1) in
  after =
    (if decide (path = expression /\ expression <> EmptyString)
     then (before.1 || bool_decide (ruleType = "allow"),
           before.2 || bool_decide (ruleType = "disallow"))
     else before) /\
  (before.1 = true -> after.1 = true) /\
  (before.2 = true -> after.2 = true).
Proof.
  intros before after.
  assert (H : after =
    (if decide (path = expression /\ expression <> EmptyString)
     then (before.1 || bool_decide (ruleType = "allow"),
           before.2 || bool_decide (ruleType = "disallow"))
     else before)).
  { unfold after. rewrite addExpression_root. apply flagsAt_addFrom. }
  split; [exact H|]. rewrite H.
  destruct (decide _); simpl; split; intros ->; reflexivity.
Qed.

Lemma insertion_raises_one_flag_witness :
  let this := insertAll (ExpressionTree.new true) [("/a", "allow")] in
  let after :=
    flagsAt "/a"
      (ExpressionTree.root
         (ExpressionTree.addExpression this "/a" "disallow").1) in
  (flagsAt "/a" (ExpressionTree.root this)).1 = true /\ after.1 = true.
Proof.
  intros this after.
  assert (H : (flagsAt "/a" (ExpressionTree.root this)).1 = true)
    by (vm_compute; reflexivity).
  split; [exact H|].
  exact (proj1 (proj2 (insertion_raises_one_flag this "/a" "disallow" "/a")) H).
Defined.

(** X3 (the nodes an insertion creates).  After [addExpression] a node
    stands at the end of a path exactly when one stood there before or
    the path is a prefix of the pattern: the nodes of the prefixes are
    created, no other node is, and none is removed. *)
Theorem insertion_creates_prefix_nodes (this : ExpressionTree.t)
    (expression ruleType path : string) :
  present path
    (ExpressionTree.root
       (ExpressionTree.addExpression this expression ruleType).1) =
  present path (ExpressionTree.root this) || prefix path expression.
Proof. rewrite addExpression_root. apply present_addFrom. Qed.

(** X4 (insertion is idempotent).  Inserting a rule a second time
    leaves the tree as the first insertion made it, whatever was
    inserted in between. *)
Theorem insertion_idempotent (this : ExpressionTree.t)
    (expression ruleType : string) (between : list rule) :
  let once :=
    insertAll (ExpressionTree.addExpression this expression ruleType).1
              between in
  (ExpressionTree.addExpression once expression ruleType).1 = once.
Proof.
  intros once.
  assert (Hswap : forall rules t,
    (ExpressionTree.addExpression (insertAll t rules) expression ruleType).1 =
    insertAll (ExpressionTree.addExpression t expression ruleType).1 rules).
  { induction rules as [|r rules IH]; intros t; [reflexivity|].
    rewrite !insertAll_cons, IH. f_equal. apply addExpression_comm. }
  unfold once. rewrite Hswap. f_equal.
  apply tree_eq.
  - rewrite !addExpression_root, !addFrom_tree.
    destruct expression; [reflexivity | apply markAt_idem].
  - rewrite !addExpression_default. reflexivity.
Qed.

(** * Further properties of evaluation *)

(** The flags of a tree built from nothing are those of its rules. *)
Lemma flagsAt_rules D rules path :
  flagsAt path (ExpressionTree.root (insertAll (ExpressionTree.new D) rules)) =
    ruleFlags rules path.
Proof.
  rewrite flagsAt_insertAll.
  change (ExpressionTree.root (ExpressionTree.new D)) with (newNode EmptyString).
  rewrite flagless_newNode. destruct path; reflexivity.
Qed.

Lemma noRuleOfType_hasRule ruleType rules c rest :
  noRuleOfType ruleType rules = true ->
  hasRule (String c rest) ruleType rules = false.
Proof.
  induction rules as [|[e k] rules IH]; intros H; [reflexivity|].
  unfold noRuleOfType in H. simpl in H. apply andb_true_iff in H.
  destruct H as [Hr Hrules].
  unfold hasRule. simpl existsb. fold (hasRule (String c rest) ruleType rules).
  rewrite (IH Hrules), orb_false_r.
  apply bool_decide_eq_false_2. intros [= -> ->].
  rewrite (bool_decide_eq_false_2 (String c rest = EmptyString)) in Hr
    by discriminate.
  rewrite bool_decide_eq_true_2 in Hr by reflexivity. discriminate.
Qed.

Lemma noAllowFlag_rules D rules :
  noRuleOfType "allow" rules = true ->
  noAllowFlag (ExpressionTree.root (insertAll (ExpressionTree.new D) rules)).
Proof.
  intros H path. rewrite flagsAt_rules. destruct path as [|c rest]; [reflexivity|].
  simpl. apply noRuleOfType_hasRule. exact H.
Qed.

Lemma noDisallowFlag_rules D rules :
  noRuleOfType "disallow" rules = true ->
  noDisallowFlag (ExpressionTree.root (insertAll (ExpressionTree.new D) rules)).
Proof.
  intros H path. rewrite flagsAt_rules. destruct path as [|c rest]; [reflexivity|].
  simpl. apply noRuleOfType_hasRule. exact H.
Qed.

Lemma noAllowFlag_here node : noAllowFlag node -> allowFlag node = false.
Proof. intros H. exact (H EmptyString). Qed.

Lemma noAllowFlag_child node c child :
  noAllowFlag node -> children node !! c = Some child -> noAllowFlag child.
Proof.
  intros H Hc path. specialize (H (String c path)).
  rewrite flagsAt_cons, Hc in H. exact H.
Qed.

Lemma noAllowFlag_nodeAt path node m :
  noAllowFlag node -> nodeAt path node = Some m -> noAllowFlag m.
Proof.
  revert node. induction path as [|c rest IH]; intros node H Hm.
  - injection Hm as <-. exact H.
  - simpl in Hm. destruct (children node !! c) as [child|] eqn:Hc; [|discriminate].
    apply (IH child); [exact (noAllowFlag_child _ _ _ H Hc) | exact Hm].
Qed.

Lemma noDisallowFlag_here node : noDisallowFlag node -> disallowFlag node = false.
Proof. intros H. exact (H EmptyString). Qed.

Lemma noDisallowFlag_child node c child :
  noDisallowFlag node -> children node !! c = Some child -> noDisallowFlag child.
Proof.
  intros H Hc path. specialize (H (String c path)).
  rewrite flagsAt_cons, Hc in H. exact H.
Qed.

Lemma wildcardBranch_all D evalWildcard expression v :
  (forall f, evalWildcard = Some f -> forall e, f e v = v) ->
  wildcardBranch D evalWildcard expression v = v.
Proof.
  intros H. destruct evalWildcard as [f|]; [|reflexivity].
  unfold wildcardBranch. apply scanVeredicts_all.
  intros x Hx. apply in_map_iff in Hx. destruct Hx as [i [<- _]].
  apply (H f eq_refl).
Qed.

(** Below a node without allow flags, a verdict that is false stays
    false. *)
Lemma evaluateAt_false_noAllowFlag D node :
  noAllowFlag node -> forall expression, evaluateAt D node expression false = false.
Proof.
  induction node as [node IH] using ExpressionNode_child_ind.
  intros Hno expression. pose proof (noAllowFlag_here node Hno) as Ha.
  destruct expression as [|c rest].
  - rewrite evaluateAt_empty. unfold anchorCheck.
    destruct (children node !! "$"%char) as [e|] eqn:He.
    + rewrite (noAllowFlag_here e (noAllowFlag_child _ _ _ Hno He)). simpl.
      destruct (disallowFlag e); simpl; [reflexivity|].
      unfold baseCase. rewrite Ha. destruct D, (disallowFlag node); reflexivity.
    + unfold baseCase. rewrite Ha. destruct D, (disallowFlag node); reflexivity.
  - rewrite evaluateAt_cons. cbv zeta.
    assert (Hfold : foldFlags node false = false).
    { unfold foldFlags. rewrite Ha. destruct (disallowFlag node); reflexivity. }
    rewrite Hfold, wildcardBranch_all.
    + destruct (children node !! c) as [child|] eqn:Hc; [|reflexivity].
      apply (IH c child Hc). exact (noAllowFlag_child _ _ _ Hno Hc).
    + intros f Hf e.
      destruct (children node !! "*"%char) as [w|] eqn:Hw; [|discriminate].
      injection Hf as <-.
      apply (IH _ w Hw). exact (noAllowFlag_child _ _ _ Hno Hw).
Qed.

(** Below a node without disallow flags, a verdict that is true stays
    true. *)
Lemma evaluateAt_true_noDisallowFlag D node :
  noDisallowFlag node ->
  forall expression, evaluateAt D node expression true = true.
Proof.
  induction node as [node IH] using ExpressionNode_child_ind.
  intros Hno expression. pose proof (noDisallowFlag_here node Hno) as Hd.
  destruct expression as [|c rest].
  - rewrite evaluateAt_empty. unfold anchorCheck.
    destruct (children node !! "$"%char) as [e|] eqn:He.
    + rewrite (noDisallowFlag_here e (noDisallowFlag_child _ _ _ Hno He)).
      simpl. destruct (allowFlag e); simpl; [reflexivity|].
      unfold baseCase. rewrite Hd. destruct D, (allowFlag node); reflexivity.
    + unfold baseCase. rewrite Hd. destruct D, (allowFlag node); reflexivity.
  - rewrite evaluateAt_cons. cbv zeta.
    assert (Hfold : foldFlags node true = true).
    { unfold foldFlags. rewrite Hd. destruct (allowFlag node); reflexivity. }
    rewrite Hfold, wildcardBranch_all.
    + destruct (children node !! c) as [child|] eqn:Hc; [|reflexivity].
      apply (IH c child Hc). exact (noDisallowFlag_child _ _ _ Hno Hc).
    + intros f Hf e.
      destruct (children node !! "*"%char) as [w|] eqn:Hw; [|discriminate].
      injection Hf as <-.
      apply (IH _ w Hw). exact (noDisallowFlag_child _ _ _ Hno Hw).
Qed.

(** X5 (rules of one type only).  When no rule disallows, a matcher
    whose default is true, the facade among them, allows every path,
    wildcards and anchors in the patterns notwithstanding; when no rule
    allows, a matcher whose default is false refuses every path. *)
Theorem one_sided_rules_keep_default (rules : list rule) (path : string) :
  (noRuleOfType "disallow" rules = true ->
   ExpressionTree.evaluateExpression
     (insertAll (ExpressionTree.new true) rules) path = true /\
   Permissions.isAllowed (addPaths Permissions.new rules) path = true) /\
  (noRuleOfType "allow" rules = true ->
   ExpressionTree.evaluateExpression
     (insertAll (ExpressionTree.new false) rules) path = false).
Proof.
  split.
  - intros H.
    assert (Htree : ExpressionTree.evaluateExpression
              (insertAll (ExpressionTree.new true) rules) path = true).
    { unfold ExpressionTree.evaluateExpression, __evaluateExpression.
      rewrite insertAll_default. simpl ExpressionTree.DEFAULT_PERMISSION.
      apply evaluateAt_true_noDisallowFlag. apply noDisallowFlag_rules. exact H. }
    split; [exact Htree|].
    unfold Permissions.isAllowed. rewrite addPaths_trie. exact Htree.
  - intros H.
    unfold ExpressionTree.evaluateExpression, __evaluateExpression.
    rewrite insertAll_default. simpl ExpressionTree.DEFAULT_PERMISSION.
    apply evaluateAt_false_noAllowFlag. apply noAllowFlag_rules. exact H.
Qed.

Lemma one_sided_rules_keep_default_witness :
  let allows : list rule := [("/a*", "allow"); ("/b$", "allow")] in
  let disallows : list rule := [("/a*", "disallow"); ("/b$", "disallow")] in
  noRuleOfType "disallow" allows = true /\
  noRuleOfType "allow" disallows = true /\
  Permissions.isAllowed (addPaths Permissions.new allows) "/b" = true /\
  ExpressionTree.evaluateExpression
    (insertAll (ExpressionTree.new false) disallows) "/ab" = false.
Proof.
  intros allows disallows.
  assert (H1 : noRuleOfType "disallow" allows = true) by reflexivity.
  assert (H2 : noRuleOfType "allow" disallows = true) by reflexivity.
  split; [exact H1|]. split; [exact H2|]. split.
  - exact (proj2 (proj1 (one_sided_rules_keep_default allows "/b") H1)).
  - exact (proj2 (one_sided_rules_keep_default disallows "/ab") H2).
Defined.

(** ** Strings *)

Lemma append_String c (s t : string) : String c s ++ t = String c (s ++ t).
Proof. reflexivity. Qed.

Lemma append_EmptyString_r (s : string) : s ++ EmptyString = s.
Proof.
  induction s as [|c s IH]; [reflexivity|].
  rewrite append_String, IH. reflexivity.
Qed.

Lemma append_assoc_string (s t u : string) : (s ++ t) ++ u = s ++ (t ++ u).
Proof.
  induction s as [|c s IH]; [reflexivity|].
  rewrite !append_String, IH. reflexivity.
Qed.

Lemma length_append (s t : string) :
  String.length (s ++ t) = String.length s + String.length t.
Proof.
  induction s as [|c s IH]; [reflexivity|].
  rewrite append_String. simpl. rewrite IH. reflexivity.
Qed.

Lemma substr_append (s t : string) : substr (s ++ t) (String.length s) = t.
Proof.
  induction s as [|c s IH]; [apply substr_0|].
  rewrite append_String. simpl. exact IH.
Qed.

(** ** Walking a branch of the tree *)

Lemma nodeAt_append prefix rest node :
  nodeAt (prefix ++ rest) node =
    match nodeAt prefix node with
    | Some m => nodeAt rest m
    | None => None
    end.
Proof.
  revert node. induction prefix as [|c prefix IH]; intros node; [reflexivity|].
  rewrite append_String. simpl.
  destruct (children node !! c) as [child|]; [apply IH | reflexivity].
Qed.

(** A flag that is set sits on a node. *)
Lemma flagsAt_set_nodeAt path node :
  flagsAt path node <> (false, false) ->
  exists m, nodeAt path node = Some m /\
            flagsAt path node = (allowFlag m, disallowFlag m).
Proof.
  unfold flagsAt. destruct (nodeAt path node) as [m|]; intros H.
  - exists m. split; reflexivity.
  - congruence.
Qed.

(** The characters of a branch are consumed one node at a time, down to
    the node at its end. *)
Lemma evaluateAt_walk D prefix rest :
  forall node m v,
    nodeAt prefix node = Some m ->
    exists v', evaluateAt D node (prefix ++ rest) v = evaluateAt D m rest v'.
Proof.
  induction prefix as [|c prefix IH]; intros node m v Hm.
  - injection Hm as <-. exists v. reflexivity.
  - rewrite append_String, evaluateAt_cons. cbv zeta. simpl in Hm.
    destruct (children node !! c) as [child|]; [|discriminate].
    apply (IH child m _ Hm).
Qed.

(** The same walk, where no allow flag is around, keeps a false verdict
    false. *)
Lemma evaluateAt_walk_false D prefix rest :
  forall node m,
    noAllowFlag node ->
    nodeAt prefix node = Some m ->
    evaluateAt D node (prefix ++ rest) false = evaluateAt D m rest false.
Proof.
  induction prefix as [|c prefix IH]; intros node m Hno Hm.
  - injection Hm as <-. reflexivity.
  - rewrite append_String, evaluateAt_cons. cbv zeta. simpl in Hm.
    destruct (children node !! c) as [child|] eqn:Hc; [|discriminate].
    assert (Hfold : foldFlags node false = false).
    { unfold foldFlags. rewrite (noAllowFlag_here node Hno).
      destruct (disallowFlag node); reflexivity. }
    rewrite Hfold, wildcardBranch_all.
    + apply IH; [exact (noAllowFlag_child _ _ _ Hno Hc) | exact Hm].
    + intros f Hf e.
      destruct (children node !! "*"%char) as [w|] eqn:Hw; [|discriminate].
      injection Hf as <-. apply evaluateAt_false_noAllowFlag.
      exact (noAllowFlag_child _ _ _ Hno Hw).
Qed.

(** At a disallowed node with no allow flag at or below it, whatever is
    left of the path is refused: always under the default [true], and
    under the default [false] when the verdict brought along is false. *)
Lemma evaluateAt_disallowed_node D m rest v :
  noAllowFlag m ->
  disallowFlag m = true ->
  D = true \/ v = false ->
  evaluateAt D m rest v = false.
Proof.
  intros Hno Hd Hv. pose proof (noAllowFlag_here m Hno) as Ha.
  destruct rest as [|c rest].
  - rewrite evaluateAt_empty. unfold anchorCheck.
    assert (Hbase : baseCase D m v = false).
    { unfold baseCase. rewrite Ha, Hd.
      destruct Hv as [-> | ->]; [reflexivity | destruct D; reflexivity]. }
    destruct (children m !! "$"%char) as [e|] eqn:He; [|exact Hbase].
    rewrite (noAllowFlag_here e (noAllowFlag_child _ _ _ Hno He)). simpl.
    destruct (disallowFlag e); simpl; [reflexivity | exact Hbase].
  - transitivity (evaluateAt D m (String c rest) false).
    + rewrite !evaluateAt_cons. unfold foldFlags. rewrite Ha, Hd. reflexivity.
    + apply evaluateAt_false_noAllowFlag. exact Hno.
Qed.

Lemma scanVeredicts_refused veredicts v :
  In false veredicts -> scanVeredicts true veredicts v = false.
Proof.
  induction veredicts as [|x l IH]; intros H; [contradiction|].
  simpl. destruct x; simpl.
  - apply IH. destruct H as [H|H]; [discriminate | exact H].
  - reflexivity.
Qed.

Lemma ruleFlags_nonempty rules c rest :
  ruleFlags rules (String c rest) =
    (hasRule (String c rest) "allow" rules,
     hasRule (String c rest) "disallow" rules).
Proof. reflexivity. Qed.

(** The children of the root are the first characters of the patterns. *)
Lemma root_child_None D rules c :
  (forall r, In r rules -> firstCharacter r.1 <> Some c) ->
  children (ExpressionTree.root (insertAll (ExpressionTree.new D) rules)) !! c
    = None.
Proof.
  intros H.
  pose proof (present_insertAll rules (ExpressionTree.new D)
                (String c EmptyString)) as Hp.
  match type of Hp with
  | _ = _ || ?found => assert (Hnone : found = false)
  end.
  { clear Hp. induction rules as [|r rules IH]; [reflexivity|].
    simpl existsb. rewrite IH by (intros r' Hr'; apply H; right; exact Hr').
    rewrite orb_false_r.
    specialize (H r (or_introl eq_refl)).
    destruct (r.1) as [|c' e]; [reflexivity|].
    simpl. destruct (ascii_dec c c') as [->|Hne]; [|reflexivity].
    exfalso. apply H. reflexivity. }
  rewrite Hnone in Hp.
  change (ExpressionTree.root (ExpressionTree.new D))
    with (newNode EmptyString) in Hp.
  rewrite !present_cons in Hp. simpl in Hp. rewrite lookup_empty in Hp.
  destruct (children _ !! c); [discriminate | reflexivity].
Qed.

(** X6 (a path no rule starts like).  When no pattern starts with the
    first character of the path and none starts with [*], the path gets
    the default permission. *)
Theorem unmatched_first_character (D : bool) (rules : list rule)
    (c : ascii) (rest : string) :
  (forall r, In r rules ->
             firstCharacter r.1 <> Some c /\
             firstCharacter r.1 <> Some "*"%char) ->
  ExpressionTree.evaluateExpression
    (insertAll (ExpressionTree.new D) rules) (String c rest) = D.
Proof.
  intros H.
  unfold ExpressionTree.evaluateExpression, __evaluateExpression.
  rewrite insertAll_default. simpl ExpressionTree.DEFAULT_PERMISSION.
  rewrite evaluateAt_cons. cbv zeta.
  rewrite (root_child_None D rules c) by (intros r Hr; apply (H r Hr)).
  rewrite (root_child_None D rules "*"%char) by (intros r Hr; apply (H r Hr)).
  simpl. unfold foldFlags.
  pose proof (flagsAt_rules D rules EmptyString) as Hroot.
  rewrite flagsAt_empty in Hroot. simpl in Hroot. injection Hroot as -> ->.
  reflexivity.
Qed.

Lemma unmatched_first_character_witness :
  let rules : list rule := [("/a*", "disallow"); (EmptyString, "allow")] in
  (forall r, In r rules ->
             firstCharacter r.1 <> Some "b"%char /\
             firstCharacter r.1 <> Some "*"%char) /\
  ExpressionTree.evaluateExpression
    (insertAll (ExpressionTree.new true) rules) "b/a" = true.
Proof.
  intros rules.
  assert (H : forall r, In r rules ->
                firstCharacter r.1 <> Some "b"%char /\
                firstCharacter r.1 <> Some "*"%char).
  { intros r [<-|[<-|[]]]; split; discriminate. }
  split; [exact H|].
  exact (unmatched_first_character true rules "b"%char "/a" H).
Defined.

(** The node of a pattern that some rule disallows. *)
Lemma disallowed_pattern_node D rules pattern :
  pattern <> EmptyString ->
  hasRule pattern "disallow" rules = true ->
  exists m,
    nodeAt pattern
      (ExpressionTree.root (insertAll (ExpressionTree.new D) rules)) = Some m /\
    disallowFlag m = true.
Proof.
  intros Hne Hrule.
  pose proof (flagsAt_rules D rules pattern) as Hflags.
  destruct pattern as [|c rest]; [congruence|].
  rewrite ruleFlags_nonempty, Hrule in Hflags.
  destruct (flagsAt_set_nodeAt _ _ ltac:(rewrite Hflags; congruence))
    as [m [Hm Hfm]].
  exists m. split; [exact Hm|]. congruence.
Qed.

(** X7 (rule sets that only disallow).  When no rule allows, every
    path that starts with a disallowed pattern is refused, under either
    default: the pattern itself and every extension of it. *)
Theorem disallow_only_blocks_extensions (D : bool) (rules : list rule)
    (pattern rest : string) :
  noRuleOfType "allow" rules = true ->
  hasRule pattern "disallow" rules = true ->
  pattern <> EmptyString ->
  ExpressionTree.evaluateExpression
    (insertAll (ExpressionTree.new D) rules) (pattern ++ rest) = false.
Proof.
  intros Hno Hrule Hne.
  destruct (disallowed_pattern_node D rules pattern Hne Hrule) as [m [Hm Hd]].
  pose proof (noAllowFlag_rules D rules Hno) as Hroot.
  pose proof (noAllowFlag_nodeAt _ _ _ Hroot Hm) as Hnom.
  unfold ExpressionTree.evaluateExpression, __evaluateExpression.
  rewrite insertAll_default. simpl ExpressionTree.DEFAULT_PERMISSION.
  destruct D.
  - destruct (evaluateAt_walk true pattern rest _ m true Hm) as [v' ->].
    apply evaluateAt_disallowed_node; [exact Hnom | exact Hd | left; reflexivity].
  - rewrite (evaluateAt_walk_false false pattern rest _ m Hroot Hm).
    apply evaluateAt_disallowed_node; [exact Hnom | exact Hd | right; reflexivity].
Qed.

Lemma disallow_only_blocks_extensions_witness :
  let rules : list rule := [("/private/", "disallow"); ("/tmp", "disallow")] in
  noRuleOfType "allow" rules = true /\
  hasRule "/private/" "disallow" rules = true /\
  "/private/" <> EmptyString /\
  ExpressionTree.evaluateExpression
    (insertAll (ExpressionTree.new true) rules) ("/private/" ++ "x/y") = false.
Proof.
  intros rules.
  assert (H1 : noRuleOfType "allow" rules = true) by reflexivity.
  assert (H2 : hasRule "/private/" "disallow" rules = true) by reflexivity.
  assert (H3 : "/private/" <> EmptyString) by discriminate.
  split; [exact H1|]. split; [exact H2|]. split; [exact H3|].
  exact (disallow_only_blocks_extensions true rules "/private/" "x/y" H1 H2 H3).
Defined.

(** X8 (what a wildcard covers).  Under the default [true], the
    facade's, when no rule allows and [pre*suf] is disallowed, every path
    made of [pre], any characters [mid] in the place of the wildcard
    (none included), [suf] and any [tail] is refused, provided something
    is left of the path after [pre]. *)
Theorem wildcard_blocks_matches (rules : list rule)
    (pre suf mid tail : string) :
  noRuleOfType "allow" rules = true ->
  hasRule (pre ++ "*" ++ suf) "disallow" rules = true ->
  mid ++ suf ++ tail <> EmptyString ->
  ExpressionTree.evaluateExpression
    (insertAll (ExpressionTree.new true) rules)
    (pre ++ mid ++ suf ++ tail) = false /\
  Permissions.isAllowed (addPaths Permissions.new rules)
    (pre ++ mid ++ suf ++ tail) = false.
Proof.
  intros Hno Hrule Hleft.
  cut (ExpressionTree.evaluateExpression
         (insertAll (ExpressionTree.new true) rules)
         (pre ++ mid ++ suf ++ tail) = false).
  { intros H. split; [exact H|].
    unfold Permissions.isAllowed. rewrite addPaths_trie. exact H. }
  assert (Hne : pre ++ "*" ++ suf <> EmptyString).
  { destruct pre; discriminate. }
  destruct (disallowed_pattern_node true rules _ Hne Hrule) as [m [Hm Hd]].
  pose proof (noAllowFlag_rules true rules Hno) as Hroot.
  set (root := ExpressionTree.root (insertAll (ExpressionTree.new true) rules))
    in *.
  rewrite nodeAt_append in Hm.
  destruct (nodeAt pre root) as [npre|] eqn:Hpre; [|discriminate].
  rewrite append_String in Hm. simpl in Hm.
  destruct (children npre !! "*"%char) as [w|] eqn:Hw; [|discriminate].
  pose proof (noAllowFlag_nodeAt _ _ _ Hroot Hpre) as Hnopre.
  pose proof (noAllowFlag_child _ _ _ Hnopre Hw) as Hnow.
  pose proof (noAllowFlag_nodeAt _ _ _ Hnow Hm) as Hnom.
  assert (Hsuf : forall s v, evaluateAt true w (suf ++ s) v = false).
  { intros s v. destruct (evaluateAt_walk true suf s w m v Hm) as [v' ->].
    apply evaluateAt_disallowed_node; [exact Hnom | exact Hd | left; reflexivity]. }
  unfold ExpressionTree.evaluateExpression, __evaluateExpression.
  rewrite insertAll_default. simpl ExpressionTree.DEFAULT_PERMISSION. fold root.
  destruct (evaluateAt_walk true pre (mid ++ suf ++ tail) root npre true Hpre)
    as [v' ->].
  set (left := mid ++ suf ++ tail) in *.
  destruct left as [|x xs] eqn:Hx; [congruence|]. rewrite <- Hx.
  assert (Hlen : String.length left = S (String.length xs))
    by (rewrite Hx; reflexivity).
  rewrite Hx at 1. rewrite evaluateAt_cons, Hw. cbv zeta. rewrite <- Hx.
  assert (Hscan :
    wildcardBranch true (evaluateAt true <$> Some w) left
                   (foldFlags npre v') = false).
  { unfold wildcardBranch. simpl. apply scanVeredicts_refused.
    apply in_map_iff.
    destruct suf as [|y ys] eqn:Hys.
    - exists 0. split.
      + rewrite substr_0. apply (Hsuf left).
      + unfold wildcardOffsets. apply in_seq. lia.
    - exists (String.length mid). split.
      + unfold left. rewrite substr_append. apply Hsuf.
      + unfold wildcardOffsets. apply in_seq. unfold left.
        rewrite !length_append. simpl. lia. }
  rewrite Hx in Hscan |- *. rewrite Hscan.
  destruct (children npre !! x) as [child|] eqn:Hc; [|reflexivity].
  apply evaluateAt_false_noAllowFlag. exact (noAllowFlag_child _ _ _ Hnopre Hc).
Qed.

Lemma wildcard_blocks_matches_witness :
  let rules : list rule := [("/a*b", "disallow")] in
  noRuleOfType "allow" rules = true /\
  hasRule ("/a" ++ "*" ++ "b") "disallow" rules = true /\
  "xxx" ++ "b" ++ EmptyString <> EmptyString /\
  Permissions.isAllowed (addPaths Permissions.new rules)
    ("/a" ++ "xxx" ++ "b" ++ EmptyString) = false.
Proof.
  intros rules.
  assert (H1 : noRuleOfType "allow" rules = true) by reflexivity.
  assert (H2 : hasRule ("/a" ++ "*" ++ "b") "disallow" rules = true)
    by reflexivity.
  assert (H3 : "xxx" ++ "b" ++ EmptyString <> EmptyString) by discriminate.
  split; [exact H1|]. split; [exact H2|]. split; [exact H3|].
  exact (proj2 (wildcard_blocks_matches rules "/a" "b" "xxx" EmptyString
                  H1 H2 H3)).
Defined.

(** X9 (an anchored rule decides the exact path).  Whatever the other
    rules and the default, once [p$] has been inserted as allow or as
    disallow, the path [p] is answered by that rule alone: allowed when
    [p$] was inserted as allow, refused when it was inserted only as
    disallow. *)
Theorem anchored_rule_decides_exact_path (D : bool) (rules : list rule)
    (p : string) :
  hasRule (p ++ "$") "allow" rules || hasRule (p ++ "$") "disallow" rules
    = true ->
  ExpressionTree.evaluateExpression
    (insertAll (ExpressionTree.new D) rules) p
    = hasRule (p ++ "$") "allow" rules.
Proof.
  intros Hrule.
  pose proof (flagsAt_rules D rules (p ++ "$")) as Hflags.
  assert (Hform : ruleFlags rules (p ++ "$") =
                  (hasRule (p ++ "$") "allow" rules,
                   hasRule (p ++ "$") "disallow" rules)).
  { destruct p; reflexivity. }
  rewrite Hform in Hflags.
  destruct (flagsAt_set_nodeAt (p ++ "$")
              (ExpressionTree.root (insertAll (ExpressionTree.new D) rules)))
    as [e [He Hfe]].
  { rewrite Hflags. intros [= Ha Hd]. rewrite Ha, Hd in Hrule. discriminate. }
  rewrite Hflags in Hfe. injection Hfe as Ha Hd.
  rewrite nodeAt_append in He.
  set (root := ExpressionTree.root (insertAll (ExpressionTree.new D) rules))
    in *.
  destruct (nodeAt p root) as [m|] eqn:Hm; [|discriminate].
  simpl in He.
  destruct (children m !! "$"%char) as [e'|] eqn:He'; [|discriminate].
  injection He as ->.
  unfold ExpressionTree.evaluateExpression, __evaluateExpression. fold root.
  destruct (evaluateAt_walk (ExpressionTree.DEFAULT_PERMISSION
                               (insertAll (ExpressionTree.new D) rules))
              p EmptyString root m
              (ExpressionTree.DEFAULT_PERMISSION
                 (insertAll (ExpressionTree.new D) rules)) Hm) as [v' Hwalk].
  rewrite append_EmptyString_r in Hwalk. rewrite Hwalk.
  rewrite evaluateAt_empty. unfold anchorCheck. rewrite He'. simpl.
  rewrite Ha, Hd in Hrule. rewrite Ha.
  destruct (allowFlag e); [reflexivity|].
  simpl in Hrule. rewrite Hrule. reflexivity.
Qed.

Lemma anchored_rule_decides_exact_path_witness :
  let rules : list rule :=
    [("/a", "disallow"); ("/a/b$", "allow"); ("/a/b", "disallow")] in
  hasRule ("/a/b" ++ "$") "allow" rules
    || hasRule ("/a/b" ++ "$") "disallow" rules = true /\
  ExpressionTree.evaluateExpression
    (insertAll (ExpressionTree.new true) rules) "/a/b"
    = hasRule ("/a/b" ++ "$") "allow" rules.
Proof.
  intros rules.
  assert (H : hasRule ("/a/b" ++ "$") "allow" rules
              || hasRule ("/a/b" ++ "$") "disallow" rules = true)
    by reflexivity.
  split; [exact H|].
  exact (anchored_rule_decides_exact_path true rules "/a/b" H).
Defined.

(** ** Rule sets without wildcard and anchor *)

Lemma plain_cons c rest :
  plain (String c rest) = true ->
  c <> "*"%char /\ c <> "$"%char /\ plain rest = true.
Proof.
  unfold plain. simpl. intros H.
  apply andb_true_iff in H. destruct H as [H1 H2].
  apply negb_true_iff, orb_false_iff in H1. destruct H1 as [H1 H1'].
  apply negb_true_iff, orb_false_iff in H2. destruct H2 as [H2 H2'].
  apply bool_decide_eq_false in H1. apply bool_decide_eq_false in H2.
  repeat split; try assumption.
  rewrite H1', H2'. reflexivity.
Qed.

Lemma wildfree_newNode value : wildfree (newNode value).
Proof.
  intros [|c path] m H.
  - injection H as <-. simpl. rewrite !lookup_empty. split; reflexivity.
  - simpl in H. rewrite lookup_empty in H. discriminate.
Qed.

Lemma wildfree_child node c child :
  wildfree node -> children node !! c = Some child -> wildfree child.
Proof.
  intros H Hc path m Hm. apply (H (String c path)). simpl. rewrite Hc. exact Hm.
Qed.

Lemma wildfree_enter node c : wildfree node -> wildfree (enter node c).
Proof.
  intros H. unfold enter. destruct (children node !! c) as [x|] eqn:Hx.
  - exact (wildfree_child _ _ _ H Hx).
  - apply wildfree_newNode.
Qed.

Lemma wildfree_markAt ruleType expression node :
  plain expression = true -> wildfree node ->
  wildfree (markAt ruleType expression node).
Proof.
  revert node. induction expression as [|c rest IH]; intros node Hp Hw.
  - simpl. intros [|c path] m Hm.
    + injection Hm as <-. rewrite mark_children. apply (Hw EmptyString). reflexivity.
    + simpl in Hm. rewrite mark_children in Hm. apply (Hw (String c path)).
      exact Hm.
  - destruct (plain_cons c rest Hp) as [Hstar [Hdollar Hrest]].
    pose proof (IH (enter node c) Hrest (wildfree_enter node c Hw)) as Hsub.
    simpl markAt. intros [|c' path] m Hm.
    + injection Hm as <-. simpl.
      rewrite !lookup_insert_ne by assumption.
      apply (Hw EmptyString). reflexivity.
    + simpl in Hm. rewrite lookup_insert in Hm.
      destruct (decide (c = c')) as [<-|Hne].
      * apply (Hsub path). exact Hm.
      * apply (Hw (String c' path)). exact Hm.
Qed.

Lemma wildfree_insertAll rules this :
  forallb (fun r => plain r.1) rules = true ->
  wildfree (ExpressionTree.root this) ->
  wildfree (ExpressionTree.root (insertAll this rules)).
Proof.
  revert this. induction rules as [|r rules IH]; intros this Hp Hw; [exact Hw|].
  simpl in Hp. apply andb_true_iff in Hp. destruct Hp as [Hr Hrules].
  rewrite insertAll_cons. apply IH; [exact Hrules|].
  rewrite addExpression_root, addFrom_tree.
  destruct (r.1) as [|c rest] eqn:He; [exact Hw|].
  apply wildfree_markAt; assumption.
Qed.

Lemma prefixVerdict_unflagged D rules rest :
  forall walked v,
    (forall q, ruleFlags rules (walked ++ q) = (false, false)) ->
    prefixVerdict D rules walked rest v = v.
Proof.
  induction rest as [|c rest IH]; intros walked v H.
  - simpl. specialize (H EmptyString). rewrite append_EmptyString_r in H.
    rewrite H. destruct D; reflexivity.
  - simpl. pose proof (H EmptyString) as H0.
    rewrite append_EmptyString_r in H0. rewrite H0. simpl.
    apply IH. intros q. rewrite append_assoc_string. apply H.
Qed.

(** On a tree without wildcard and anchor edges, the evaluation from
    the node at the end of [walked] is the scan of the rules by
    prefixes. *)
Lemma evaluateAt_prefixVerdict D D0 rules rest :
  let root := ExpressionTree.root (insertAll (ExpressionTree.new D0) rules) in
  wildfree root ->
  forall walked m v,
    nodeAt walked root = Some m ->
    evaluateAt D m rest v = prefixVerdict D rules walked rest v.
Proof.
  intros root Hw.
  induction rest as [|c rest IH]; intros walked m v Hm.
  - pose proof (flagsAt_rules D0 rules walked) as Hflags. fold root in Hflags.
    unfold flagsAt in Hflags. rewrite Hm in Hflags.
    rewrite evaluateAt_empty. unfold anchorCheck.
    rewrite (proj2 (Hw walked m Hm)). simpl. rewrite <- Hflags. reflexivity.
  - pose proof (flagsAt_rules D0 rules walked) as Hflags. fold root in Hflags.
    unfold flagsAt in Hflags. rewrite Hm in Hflags.
    rewrite evaluateAt_cons. cbv zeta.
    rewrite (proj1 (Hw walked m Hm)). simpl.
    rewrite <- Hflags. simpl. fold (foldFlags m v).
    destruct (children m !! c) as [child|] eqn:Hc.
    + apply IH. rewrite nodeAt_append, Hm. simpl. rewrite Hc. reflexivity.
    + symmetry. apply prefixVerdict_unflagged. intros q.
      rewrite <- (flagsAt_rules D0 rules). fold root.
      unfold flagsAt. rewrite append_assoc_string, nodeAt_append, Hm.
      simpl. rewrite Hc. reflexivity.
Qed.

(** X10 (rule sets without wildcard and anchor).  When no pattern
    holds [*] or [$], the answer of the tree is the one read off the
    list of rules by the prefixes of the path: the longest proper prefix
    with a rule decides, allow winning where both types were inserted
    for it, and a rule for the whole path counts only when it goes
    against the default. *)
Theorem plain_rules_prefix_scan (D : bool) (rules : list rule)
    (path : string) :
  forallb (fun r => plain r.1) rules = true ->
  ExpressionTree.evaluateExpression
    (insertAll (ExpressionTree.new D) rules) path =
  prefixVerdict D rules EmptyString path D.
Proof.
  intros Hp.
  unfold ExpressionTree.evaluateExpression, __evaluateExpression.
  rewrite insertAll_default. simpl ExpressionTree.DEFAULT_PERMISSION.
  apply (evaluateAt_prefixVerdict D D rules path).
  - apply wildfree_insertAll; [exact Hp | apply wildfree_newNode].
  - reflexivity.
Qed.

Lemma plain_rules_prefix_scan_witness :
  let rules : list rule :=
    [("/private/", "disallow"); ("/private/public/", "allow")] in
  forallb (fun r => plain r.1) rules = true /\
  ExpressionTree.evaluateExpression
    (insertAll (ExpressionTree.new true) rules) "/private/public/page" =
  prefixVerdict true rules EmptyString "/private/public/page" true.
Proof.
  intros rules.
  assert (H : forallb (fun r => plain r.1) rules = true) by reflexivity.
  split; [exact H|].
  exact (plain_rules_prefix_scan true rules "/private/public/page" H).
Defined.

(** ** The height of the tree *)

Lemma map_fold_max_le {A : Type} (h : A -> nat) (m : gmap ascii A) (B : nat) :
  (forall c x, m !! c = Some x -> h x <= B) ->
  map_fold (fun _ child acc => Nat.max (h child) acc) 0 m <= B.
Proof.
  induction m as [|i y m Hi IH] using map_ind; intros H.
  - rewrite map_fold_empty. lia.
  - rewrite map_fold_insert_L; [| intros; lia | exact Hi].
    assert (Hy : h y <= B) by (apply (H i); apply lookup_insert_eq).
    assert (Hm : map_fold (fun _ child acc => Nat.max (h child) acc) 0 m <= B).
    { apply IH. intros c x Hx. apply (H c).
      rewrite lookup_insert_ne; [exact Hx|]. intros ->. congruence. }
    lia.
Qed.

Lemma height_le node B :
  (forall c child, children node !! c = Some child -> height child <= B) ->
  height node <= S B.
Proof.
  intros H. destruct node as [v ch a d]. simpl in *.
  pose proof (map_fold_max_le height ch B H). lia.
Qed.

Lemma height_mark ruleType node : height (mark ruleType node) = height node.
Proof.
  unfold mark, applyRule.
  destruct (decide _); [destruct node; reflexivity|].
  destruct (decide _); destruct node; reflexivity.
Qed.

Lemma height_enter node c : height (enter node c) <= Nat.max 1 (height node - 1).
Proof.
  unfold enter. destruct (children node !! c) as [x|] eqn:Hx.
  - pose proof (height_child _ _ _ Hx). lia.
  - simpl. rewrite map_fold_empty. lia.
Qed.

(** A walk makes the tree no higher than the expression is long, plus
    the node it starts from. *)
Lemma height_markAt ruleType expression node :
  height (markAt ruleType expression node)
    <= Nat.max (height node) (S (String.length expression)).
Proof.
  revert node. induction expression as [|c rest IH]; intros node.
  - simpl markAt. rewrite height_mark. lia.
  - simpl markAt. pose proof (height_pos node) as Hpos.
    pose proof (IH (enter node c)) as Hsub.
    pose proof (height_enter node c) as Hent.
    transitivity (S (Nat.max (height node - 1) (S (String.length rest))));
      [|simpl; lia].
    apply height_le. intros c' child. rewrite children_setChild.
    destruct (decide (c = c')) as [_|_].
    + intros [= <-]. lia.
    + intros Hc. pose proof (height_child _ _ _ Hc). lia.
Qed.

Lemma height_insertAll rules this :
  height (ExpressionTree.root (insertAll this rules))
    <= Nat.max (height (ExpressionTree.root this)) (S (longestPattern rules)).
Proof.
  revert this. induction rules as [|r rules IH]; intros this.
  - simpl. lia.
  - rewrite insertAll_cons. etransitivity; [apply IH|].
    rewrite addExpression_root, addFrom_tree.
    assert (Hone : height (match r.1 with
                           | EmptyString => ExpressionTree.root this
                           | String _ _ =>
                               markAt r.2 r.1 (ExpressionTree.root this)
                           end)
                   <= Nat.max (height (ExpressionTree.root this))
                              (S (String.length r.1))).
    { destruct (r.1) eqn:He; [lia|]. rewrite <- He. apply height_markAt. }
    simpl longestPattern. lia.
Qed.

(** X11 (the depth of the recursion).  The nesting of the recursive
    calls of the evaluation is bounded by the longest inserted pattern
    plus one, whatever the length of the path: the tree is no higher
    than that, and with that much fuel the bounded evaluation returns
    the answer. *)
Theorem recursion_depth_bounded_by_patterns (D : bool) (rules : list rule)
    (path : string) :
  let this := insertAll (ExpressionTree.new D) rules in
  height (ExpressionTree.root this) <= S (longestPattern rules) /\
  evaluateFuel (S (longestPattern rules))
               (ExpressionTree.DEFAULT_PERMISSION this) path
               (ExpressionTree.root this)
               (ExpressionTree.DEFAULT_PERMISSION this)
    = Some (ExpressionTree.evaluateExpression this path).
Proof.
  intros this.
  assert (H : height (ExpressionTree.root this) <= S (longestPattern rules)).
  { pose proof (height_insertAll rules (ExpressionTree.new D)) as H.
    fold this in H.
    change (height (ExpressionTree.root (ExpressionTree.new D)))
      with (height (newNode EmptyString)) in H.
    simpl in H. rewrite map_fold_empty in H. lia. }
  split; [exact H|]. apply evaluateFuel_enough. exact H.
Qed.

(** ** A wildcard at the end of a pattern *)

Lemma enter_newNode value c :
  enter (newNode value) c = newNode (String c EmptyString).
Proof. unfold enter. simpl. rewrite lookup_empty. reflexivity. Qed.

Lemma evaluateAt_before_trailing_wildcard D ruleType p :
  occurs "*" p = false ->
  forall value v,
    evaluateAt D (markAt ruleType (p ++ "*") (newNode value)) p v = v.
Proof.
  induction p as [|c p IH]; intros Hp value v.
  - rewrite evaluateAt_empty.
    change (EmptyString ++ "*") with "*". simpl markAt.
    unfold anchorCheck. simpl children.
    rewrite lookup_insert_ne by discriminate. rewrite lookup_empty.
    unfold baseCase. simpl. destruct D; reflexivity.
  - simpl in Hp. apply orb_false_iff in Hp. destruct Hp as [Hc Hp].
    apply bool_decide_eq_false in Hc.
    rewrite append_String. simpl markAt. rewrite enter_newNode.
    rewrite evaluateAt_cons. cbv zeta. simpl children.
    rewrite lookup_insert_eq.
    rewrite lookup_insert_ne by exact Hc. rewrite lookup_empty. simpl.
    apply IH. exact Hp.
Qed.

(** X12 (a wildcard at the end needs a character).  After the single
    rule [p*], of either type, where [p] holds no [*], the path [p]
    itself gets the default permission: the wildcard child is not
    looked at once the path is used up. *)
Theorem trailing_wildcard_skips_exact_path (D : bool) (ruleType p : string) :
  occurs "*" p = false ->
  ExpressionTree.evaluateExpression
    (insertAll (ExpressionTree.new D) [(p ++ "*", ruleType)]) p = D.
Proof.
  intros Hp.
  unfold ExpressionTree.evaluateExpression, __evaluateExpression.
  rewrite insertAll_default. simpl ExpressionTree.DEFAULT_PERMISSION.
  unfold insertAll. simpl fold_left.
  rewrite addExpression_root, addFrom_tree.
  change (ExpressionTree.root (ExpressionTree.new D)) with (newNode EmptyString).
  destruct (p ++ "*") eqn:He.
  - destruct p; discriminate.
  - rewrite <- He. apply evaluateAt_before_trailing_wildcard. exact Hp.
Qed.

Lemma trailing_wildcard_skips_exact_path_witness :
  occurs "*" "/private" = false /\
  ExpressionTree.evaluateExpression
    (insertAll (ExpressionTree.new true) [("/private" ++ "*", "disallow")])
    "/private" = true.
Proof.
  assert (H : occurs "*" "/private" = false) by reflexivity.
  split; [exact H|].
  exact (trailing_wildcard_skips_exact_path true "disallow" "/private" H).
Defined.

(** ** Longest match *)

Lemma prefixVerdict_quiet D rules rest :
  forall walked v,
    (forall t u, rest = t ++ u -> ruleFlags rules (walked ++ t) = (false, false)) ->
    prefixVerdict D rules walked rest v = v.
Proof.
  induction rest as [|c rest IH]; intros walked v H.
  - pose proof (H EmptyString EmptyString eq_refl) as H0.
    rewrite append_EmptyString_r in H0. simpl. rewrite H0.
    destruct D; reflexivity.
  - pose proof (H EmptyString (String c rest) eq_refl) as H0.
    rewrite append_EmptyString_r in H0. simpl. rewrite H0. simpl.
    apply IH. intros t u ->. rewrite append_assoc_string.
    apply (H (String c t) u). reflexivity.
Qed.

Lemma prefixVerdict_walk D rules a :
  forall walked rest v,
    exists v',
      prefixVerdict D rules walked (a ++ rest) v =
      prefixVerdict D rules (walked ++ a) rest v'.
Proof.
  induction a as [|x a IH]; intros walked rest v.
  - exists v. rewrite append_EmptyString_r. reflexivity.
  - rewrite append_String. simpl.
    match goal with
    | |- context [prefixVerdict D rules _ (a ++ rest) ?w] =>
        destruct (IH (walked ++ String x EmptyString) rest w) as [v' ->]
    end.
    exists v'. rewrite append_assoc_string. reflexivity.
Qed.

(** X13 (longest match, past the end of the rule).  When no pattern
    holds [*] or [$], the non-empty [q] has a rule, the path goes on past
    [q] by at
    least one character, and no longer prefix of the path has a rule,
    then the rule for [q] decides under either default: the path is
    allowed when [q] was inserted as allow, also if it was inserted as
    disallow too, and refused otherwise. *)
Theorem plain_rules_longest_match (D : bool) (rules : list rule)
    (q : string) (c : ascii) (rest : string) :
  forallb (fun r => plain r.1) rules = true ->
  q <> EmptyString ->
  hasRule q "allow" rules || hasRule q "disallow" rules = true ->
  (forall t u, String c rest = t ++ u -> t <> EmptyString ->
               ruleFlags rules (q ++ t) = (false, false)) ->
  ExpressionTree.evaluateExpression
    (insertAll (ExpressionTree.new D) rules) (q ++ String c rest)
    = hasRule q "allow" rules.
Proof.
  intros Hplain Hq Hrule Hquiet.
  rewrite (plain_rules_prefix_scan D rules _ Hplain).
  destruct (prefixVerdict_walk D rules q EmptyString (String c rest) D)
    as [v' ->].
  change (EmptyString ++ q) with q. simpl prefixVerdict.
  rewrite prefixVerdict_quiet.
  - destruct q as [|x q']; [congruence|]. rewrite ruleFlags_nonempty. simpl.
    destruct (hasRule (String x q') "allow" rules); [reflexivity|].
    simpl in Hrule. rewrite Hrule. reflexivity.
  - intros t u ->. rewrite append_assoc_string.
    apply (Hquiet (String c t) u); [reflexivity | discriminate].
Qed.

Lemma plain_rules_longest_match_witness :
  let rules : list rule :=
    [("/private/", "disallow"); ("/private/public/", "allow")] in
  forallb (fun r => plain r.1) rules = true /\
  "/private/public/" <> EmptyString /\
  hasRule "/private/public/" "allow" rules
    || hasRule "/private/public/" "disallow" rules = true /\
  ExpressionTree.evaluateExpression
    (insertAll (ExpressionTree.new true) rules)
    ("/private/public/" ++ String "p" "age")
    = hasRule "/private/public/" "allow" rules.
Proof.
  intros rules.
  assert (H1 : forallb (fun r => plain r.1) rules = true) by reflexivity.
  assert (H2 : "/private/public/" <> EmptyString) by discriminate.
  assert (H3 : hasRule "/private/public/" "allow" rules
               || hasRule "/private/public/" "disallow" rules = true)
    by reflexivity.
  assert (H4 : forall t u, String "p" "age" = t ++ u -> t <> EmptyString ->
                 ruleFlags rules ("/private/public/" ++ t) = (false, false)).
  { intros [|x t] u _ Ht; [congruence|]. reflexivity. }
  split; [exact H1|]. split; [exact H2|]. split; [exact H3|].
  exact (plain_rules_longest_match true rules "/private/public/" "p" "age"
           H1 H2 H3 H4).
Defined.

(** X14 (a rule against the default at its own pattern).  Whatever the
    other rules, a non-empty pattern inserted with the type that goes
    against the
    default (disallow under the default [true], as on the facade; allow
    under the default [false]) gets that verdict when it is the path,
    unless the pattern followed by [$] has been inserted as well. *)
Theorem rule_against_default_decides_its_pattern (D : bool)
    (rules : list rule) (c : ascii) (rest : string) :
  let pattern := String c rest in
  hasRule pattern (if D then "disallow" else "allow") rules = true ->
  hasRule (pattern ++ "$") "allow" rules = false ->
  hasRule (pattern ++ "$") "disallow" rules = false ->
  ExpressionTree.evaluateExpression
    (insertAll (ExpressionTree.new D) rules) pattern = negb D /\
  (D = true ->
   Permissions.isAllowed (addPaths Permissions.new rules) pattern = false).
Proof.
  intros pattern Hrule Ha Hd.
  pose proof (exact_rule_against_default D rules c rest Hrule Ha Hd) as H.
  split; [exact H|]. intros ->.
  unfold Permissions.isAllowed. rewrite addPaths_trie. exact H.
Qed.

Lemma rule_against_default_decides_its_pattern_witness :
  let rules : list rule :=
    [("/a/b", "disallow"); ("/a/b/c", "allow"); ("/a", "allow")] in
  hasRule "/a/b" "disallow" rules = true /\
  hasRule ("/a/b" ++ "$") "allow" rules = false /\
  hasRule ("/a/b" ++ "$") "disallow" rules = false /\
  Permissions.isAllowed (addPaths Permissions.new rules) "/a/b" = false.
Proof.
  intros rules.
  assert (H1 : hasRule "/a/b" "disallow" rules = true) by reflexivity.
  assert (H2 : hasRule ("/a/b" ++ "$") "allow" rules = false) by reflexivity.
  assert (H3 : hasRule ("/a/b" ++ "$") "disallow" rules = false) by reflexivity.
  split; [exact H1|]. split; [exact H2|]. split; [exact H3|].
  exact (proj2 (rule_against_default_decides_its_pattern true rules
                  "/"%char "a/b" H1 H2 H3) eq_refl).
Defined.

(** * Evaluation reads the matcher and writes nothing *)

Lemma readOnly_ret {A : Type} (a : A) : readOnly (methodRet a).
Proof. intros this. reflexivity. Qed.

Lemma readOnly_bind {A B : Type} (m : Method A) (k : A -> Method B) :
  readOnly m -> (forall a, readOnly (k a)) -> readOnly (methodBind m k).
Proof.
  intros Hm Hk this. unfold methodBind.
  pose proof (Hm this) as H. destruct (m this) as [a this']. simpl in H.
  subst this'. apply Hk.
Qed.

Lemma readOnly_getDefault : readOnly getDefault.
Proof. intros this. reflexivity. Qed.

Lemma readOnly_childrenHas node character : readOnly (childrenHas node character).
Proof. intros this. reflexivity. Qed.

Lemma readOnly_childrenGet node character : readOnly (childrenGet node character).
Proof. intros this. reflexivity. Qed.

Lemma readOnly_getAllowFlag node : readOnly (getAllowFlag node).
Proof. intros this. reflexivity. Qed.

Lemma readOnly_getDisallowFlag node : readOnly (getDisallowFlag node).
Proof. intros this. reflexivity. Qed.

Lemma readOnly_scanM veredicts newVeredict : readOnly (scanM veredicts newVeredict).
Proof.
  induction veredicts as [|v others IH]; simpl.
  - apply readOnly_ret.
  - apply readOnly_bind; [apply readOnly_getDefault|]. intros D.
    destruct (negb (Bool.eqb v D)); [apply readOnly_ret | exact IH].
Qed.

Lemma readOnly_collectM call offsets :
  (forall i, readOnly (call i)) -> readOnly (collectM call offsets).
Proof.
  intros Hcall. induction offsets as [|i later IH]; simpl.
  - apply readOnly_ret.
  - apply readOnly_bind; [apply Hcall|]. intros [v|]; [|apply readOnly_ret].
    apply readOnly_bind; [exact IH|]. intros veredicts. apply readOnly_ret.
Qed.

(** The evaluation leaves the matcher, with all its nodes, as it found
    it: whatever the bound, the path, the node and the verdict. *)
Lemma evaluateM_readOnly fuel :
  forall expression node currentVeredict,
    readOnly (evaluateM fuel expression node currentVeredict).
Proof.
  induction fuel as [|fuel IH]; intros expression node currentVeredict.
  - apply readOnly_ret.
  - simpl evaluateM.
    apply readOnly_bind; [apply readOnly_childrenHas|]. intros hasEndOfLine.
    apply readOnly_bind.
    { destruct hasEndOfLine; [|apply readOnly_ret].
      apply readOnly_bind; [apply readOnly_childrenGet|]. intros endOfLineNode.
      apply readOnly_bind; [apply readOnly_getAllowFlag|]. intros allowed.
      destruct (allowed && _); [apply readOnly_ret|].
      apply readOnly_bind; [apply readOnly_getDisallowFlag|]. intros disallowed.
      destruct (disallowed && _); apply readOnly_ret. }
    intros [veredict|]; [apply readOnly_ret|].
    destruct (Nat.eqb (String.length expression) 0).
    { apply readOnly_bind; [apply readOnly_getDefault|]. intros [|].
      - apply readOnly_bind; [apply readOnly_getDisallowFlag|]. intros d.
        apply readOnly_ret.
      - apply readOnly_bind; [apply readOnly_getAllowFlag|]. intros a.
        apply readOnly_ret. }
    apply readOnly_bind; [apply readOnly_getDisallowFlag|]. intros disallowed.
    apply readOnly_bind; [apply readOnly_getAllowFlag|]. intros allowed.
    apply readOnly_bind; [apply readOnly_childrenHas|]. intros hasWildcard.
    apply readOnly_bind.
    { destruct hasWildcard; [|apply readOnly_ret].
      apply readOnly_bind; [apply readOnly_childrenGet|]. intros w.
      apply readOnly_bind.
      - apply readOnly_collectM. intros i. apply IH.
      - intros [veredicts|]; [|apply readOnly_ret].
        apply readOnly_bind; [apply readOnly_scanM|]. intros scanned.
        apply readOnly_ret. }
    intros [newVeredict|]; [|apply readOnly_ret].
    destruct expression as [|character rest]; [apply readOnly_ret|].
    apply readOnly_bind; [apply readOnly_childrenHas|]. intros hasNext.
    destruct hasNext; [|apply readOnly_ret].
    apply readOnly_bind; [apply readOnly_childrenGet|]. intros next.
    apply IH.
Qed.

Lemma yields_ret {A : Type} (a : A) this : yields (methodRet a) this a.
Proof. reflexivity. Qed.

Lemma yields_bind {A B : Type} (m : Method A) (k : A -> Method B) this a b :
  yields m this a -> yields (k a) this b -> yields (methodBind m k) this b.
Proof. unfold yields, methodBind. intros -> Hk. exact Hk. Qed.

Lemma yields_scanM veredicts newVeredict this :
  yields (scanM veredicts newVeredict) this
         (scanVeredicts (ExpressionTree.DEFAULT_PERMISSION this) veredicts
                        newVeredict).
Proof.
  induction veredicts as [|v others IH]; simpl.
  - reflexivity.
  - eapply yields_bind; [reflexivity|].
    destruct (negb (Bool.eqb v (ExpressionTree.DEFAULT_PERMISSION this)));
      [reflexivity | exact IH].
Qed.

Lemma yields_collectM call (g : nat -> bool) offsets this :
  (forall i, yields (call i) this (Some (g i))) ->
  yields (collectM call offsets) this (Some (map g offsets)).
Proof.
  intros Hcall. induction offsets as [|i later IH]; simpl.
  - reflexivity.
  - eapply yields_bind; [apply Hcall|].
    eapply yields_bind; [exact IH|]. reflexivity.
Qed.

Lemma nodeAt_child_ref node c root n :
  nodeAt node root = Some n ->
  nodeAt (node ++ String c EmptyString) root = children n !! c.
Proof.
  intros Hn. rewrite nodeAt_append, Hn. simpl.
  destruct (children n !! c); reflexivity.
Qed.

(** With as much fuel as the node is high, the method returns the value
    of [__evaluateExpression] on that node. *)
Lemma evaluateM_yields this fuel :
  forall expression node n currentVeredict,
    nodeAt node (ExpressionTree.root this) = Some n ->
    height n <= fuel ->
    yields (evaluateM fuel expression node currentVeredict) this
           (Some (evaluateAt (ExpressionTree.DEFAULT_PERMISSION this) n
                             expression currentVeredict)).
Proof.
  induction fuel as [|fuel IH]; intros expression node n v Hn Hh.
  - pose proof (height_pos n). lia.
  - assert (Hflags : flagsAt node (ExpressionTree.root this) =
                     (allowFlag n, disallowFlag n)).
    { unfold flagsAt. rewrite Hn. reflexivity. }
    assert (Hhas : forall c,
      present (node ++ String c EmptyString) (ExpressionTree.root this) =
      match children n !! c with Some _ => true | None => false end).
    { intros c. unfold present. rewrite (nodeAt_child_ref _ c _ _ Hn).
      reflexivity. }
    assert (Hchild : forall c child,
      children n !! c = Some child ->
      flagsAt (node ++ String c EmptyString) (ExpressionTree.root this) =
      (allowFlag child, disallowFlag child)).
    { intros c child Hc. unfold flagsAt.
      rewrite (nodeAt_child_ref _ c _ _ Hn), Hc. reflexivity. }
    rewrite evaluateAt_unfold. simpl evaluateM.
    eapply yields_bind; [reflexivity|]. rewrite Hhas.
    eapply yields_bind with
      (a := anchorCheck n expression).
    { unfold anchorCheck.
      destruct (children n !! "$"%char) as [e|] eqn:He; [|reflexivity].
      eapply yields_bind; [reflexivity|].
      eapply yields_bind; [reflexivity|]. rewrite (Hchild _ e He). simpl fst.
      destruct (allowFlag e && _); [reflexivity|].
      eapply yields_bind; [reflexivity|]. rewrite (Hchild _ e He). simpl snd.
      destruct (disallowFlag e && _); reflexivity. }
    destruct (anchorCheck n expression) as [veredict|]; [reflexivity|].
    destruct (Nat.eqb (String.length expression) 0) eqn:Hlen.
    { eapply yields_bind; [reflexivity|]. unfold baseCase.
      destruct (ExpressionTree.DEFAULT_PERMISSION this).
      - eapply yields_bind; [reflexivity|]. rewrite Hflags. reflexivity.
      - eapply yields_bind; [reflexivity|]. rewrite Hflags. reflexivity. }
    eapply yields_bind; [reflexivity|]. rewrite Hflags. simpl snd.
    eapply yields_bind; [reflexivity|]. rewrite Hflags. simpl fst.
    fold (foldFlags n v). cbv zeta.
    eapply yields_bind; [reflexivity|]. rewrite Hhas.
    eapply yields_bind with
      (a := Some (wildcardBranch (ExpressionTree.DEFAULT_PERMISSION this)
                    (evaluateAt (ExpressionTree.DEFAULT_PERMISSION this)
                       <$> children n !! "*"%char)
                    expression (foldFlags n v))).
    { destruct (children n !! "*"%char) as [w|] eqn:Hw; [|reflexivity].
      eapply yields_bind; [reflexivity|].
      eapply yields_bind.
      - apply (yields_collectM _
                 (fun i => evaluateAt (ExpressionTree.DEFAULT_PERMISSION this)
                             w (substr expression i) (foldFlags n v))).
        intros i. apply IH.
        + rewrite (nodeAt_child_ref _ _ _ _ Hn). exact Hw.
        + pose proof (height_child _ _ _ Hw). lia.
      - eapply yields_bind; [apply yields_scanM|]. reflexivity. }
    unfold literalBranch.
    destruct expression as [|character rest]; [reflexivity|].
    eapply yields_bind; [reflexivity|]. rewrite Hhas.
    destruct (children n !! character) as [child|] eqn:Hc; [|reflexivity].
    eapply yields_bind; [reflexivity|].
    apply IH.
    + rewrite (nodeAt_child_ref _ _ _ _ Hn). exact Hc.
    + pose proof (height_child _ _ _ Hc). lia.
Qed.

Lemma evaluateExpressionM_readOnly expression :
  readOnly (evaluateExpressionM expression).
Proof.
  intros this. unfold evaluateExpressionM.
  apply (readOnly_bind getRoot); [intros t; reflexivity|]. intros root.
  apply readOnly_bind; [apply readOnly_getDefault|]. intros D.
  apply evaluateM_readOnly.
Qed.

Lemma evaluateExpressionM_yields expression this :
  yields (evaluateExpressionM expression) this
         (Some (ExpressionTree.evaluateExpression this expression)).
Proof.
  unfold evaluateExpressionM.
  eapply yields_bind; [reflexivity|].
  eapply yields_bind; [reflexivity|].
  apply evaluateM_yields; [reflexivity | lia].
Qed.

Lemma isAllowedM_state this path : (isAllowedM this path).2 = this.
Proof.
  unfold isAllowedM.
  pose proof (evaluateExpressionM_readOnly path (Permissions.trie this)) as H.
  destruct (evaluateExpressionM path (Permissions.trie this)) as [answer trie'].
  simpl in *. subst trie'. destruct this; reflexivity.
Qed.

Lemma isAllowedM_answer this path :
  (isAllowedM this path).1 = Some (Permissions.isAllowed this path).
Proof.
  unfold isAllowedM.
  rewrite (evaluateExpressionM_yields path (Permissions.trie this)).
  reflexivity.
Qed.

Lemma isAllowedM_eq this path :
  isAllowedM this path = (Some (Permissions.isAllowed this path), this).
Proof.
  pose proof (isAllowedM_state this path) as Hstate.
  pose proof (isAllowedM_answer this path) as Hanswer.
  destruct (isAllowedM this path) as [answer this']. simpl in *.
  subst. reflexivity.
Qed.

(** ** Sequences of calls *)

Lemma run_app this calls later :
  run this (calls ++ later)%list =
    ((run (run this calls).1 later).1,
     ((run this calls).2 ++ (run (run this calls).1 later).2)%list).
Proof.
  revert this. induction calls as [|c calls IH]; intros this.
  - simpl. destruct (run this later). reflexivity.
  - simpl. destruct (step this c) as [this' o].
    rewrite IH. destruct (run this' calls) as [mid os]. simpl.
    destruct (run mid later). reflexivity.
Qed.

Lemma run_queries this paths :
  run this (map IsAllowed paths) =
    (this,
     map (fun path => Answer (Some (Permissions.isAllowed this path))) paths).
Proof.
  induction paths as [|p paths IH]; [reflexivity|].
  simpl. rewrite isAllowedM_eq, IH. reflexivity.
Qed.

(** C9 (evaluation is read-only).  [__evaluateExpression], written with
    every access to the matcher and its nodes as a step that could
    change them, hands the matcher back as it got it: root, default, and
    the children and flags of every node; so do [evaluateExpression] and
    [isAllowed], whose answer is the evaluation of the path, whereas
    [addExpression] written the same way does not.  Hence a
    block of any number of [isAllowed] calls put anywhere in a sequence
    of calls changes neither the final state nor the outcome of any
    other call, before or after it. *)
Theorem evaluation_writes_nothing (this : Permissions.t)
    (before after : list call) (paths : list string) :
  (forall fuel expression node currentVeredict tree,
      (evaluateM fuel expression node currentVeredict tree).2 = tree) /\
  (forall expression tree, (evaluateExpressionM expression tree).2 = tree) /\
  (forall path,
      isAllowedM this path = (Some (Permissions.isAllowed this path), this)) /\
  ~ readOnly (addExpressionM "/a" "allow") /\
  let mid := (run this before).1 in
  run this (before ++ map IsAllowed paths ++ after)%list =
    ((run mid after).1,
     ((run this before).2
        ++ map (fun path => Answer (Some (Permissions.isAllowed mid path))) paths
        ++ (run mid after).2)%list) /\
  run this (before ++ after)%list =
    ((run mid after).1, ((run this before).2 ++ (run mid after).2)%list).
Proof.
  split; [|split; [|split; [|split]]].
  - intros fuel expression node currentVeredict tree.
    apply evaluateM_readOnly.
  - intros expression tree. apply evaluateExpressionM_readOnly.
  - intros path. apply isAllowedM_eq.
  - intros H. specialize (H (ExpressionTree.new true)).
    apply (f_equal (fun tree => present "/" (ExpressionTree.root tree))) in H.
    vm_compute in H. discriminate H.
  - intros mid. split.
    + rewrite run_app. fold mid. rewrite run_app, run_queries. reflexivity.
    + rewrite run_app. reflexivity.
Qed.

(** * A wildcard right before the anchor *)

Lemma plain_substr s i : plain s = true -> plain (substr s i) = true.
Proof.
  revert i. induction s as [|c s IH]; intros [|i] H; try exact H.
  simpl. apply IH. exact (proj2 (proj2 (plain_cons c s H))).
Qed.

Lemma substr_nonempty s i :
  i < String.length s -> exists c rest, substr s i = String c rest.
Proof.
  intros Hi. pose proof (substr_length s i) as Hlen.
  destruct (substr s i) as [|c rest]; [simpl in Hlen; lia|].
  exists c, rest. reflexivity.
Qed.

(** On the [*] node of a pattern that ends in [*$], a path that is not
    empty and holds neither special character hands the verdict back. *)
Lemma evaluateAt_wildcard_before_anchor D ruleType c rest v :
  plain (String c rest) = true ->
  evaluateAt D (markAt ruleType "$" (newNode "*")) (String c rest) v = v.
Proof.
  intros Hp. destruct (plain_cons c rest Hp) as [_ [Hdollar _]].
  rewrite evaluateAt_cons. cbv zeta. simpl markAt. simpl children.
  rewrite (lookup_insert_ne _ "$"%char "*"%char) by discriminate.
  rewrite (lookup_insert_ne _ "$"%char c) by congruence.
  rewrite !lookup_empty. reflexivity.
Qed.

(** The tree of the single pattern [X*$] hands back the verdict of every
    path without special characters. *)
Lemma evaluateAt_dead_rule D ruleType X :
  plain X = true ->
  forall value path v,
    plain path = true ->
    evaluateAt D (markAt ruleType (X ++ "*$") (newNode value)) path v = v.
Proof.
  induction X as [|x X IH]; intros HX value path v Hpath.
  - change (EmptyString ++ "*$") with "*$".
    change (markAt ruleType "*$" (newNode value))
      with (setChild (newNode value) "*"
              (markAt ruleType "$" (enter (newNode value) "*"))).
    rewrite enter_newNode.
    remember (markAt ruleType "$" (newNode "*")) as w eqn:Hw.
    destruct path as [|c rest].
    + rewrite evaluateAt_empty. unfold anchorCheck. simpl children.
      rewrite lookup_insert_ne by discriminate. rewrite lookup_empty.
      unfold baseCase. simpl. destruct D; reflexivity.
    + destruct (plain_cons c rest Hpath) as [Hstar _].
      rewrite evaluateAt_cons. cbv zeta. simpl children.
      rewrite lookup_insert_eq.
      rewrite lookup_insert_ne by congruence. rewrite lookup_empty.
      change (foldFlags (setChild (newNode value) "*" w) v) with v.
      change (evaluateAt D <$> Some w) with (Some (evaluateAt D w)).
      unfold wildcardBranch.
      apply scanVeredicts_all. intros b Hb.
      apply in_map_iff in Hb. destruct Hb as [i [<- Hi]].
      unfold wildcardOffsets in Hi. apply in_seq in Hi.
      destruct (substr_nonempty (String c rest) i ltac:(lia)) as [c' [rest' He]].
      pose proof (plain_substr (String c rest) i Hpath) as Hsub.
      rewrite He in Hsub |- *. subst w.
      apply evaluateAt_wildcard_before_anchor. exact Hsub.
  - destruct (plain_cons x X HX) as [Hstar [Hdollar HX']].
    rewrite append_String. simpl markAt. rewrite enter_newNode.
    destruct path as [|c rest].
    + rewrite evaluateAt_empty. unfold anchorCheck. simpl children.
      rewrite lookup_insert_ne by exact Hdollar. rewrite lookup_empty.
      unfold baseCase. simpl. destruct D; reflexivity.
    + destruct (plain_cons c rest Hpath) as [_ [_ Hrest]].
      rewrite evaluateAt_cons. cbv zeta. simpl children.
      rewrite (lookup_insert_ne _ x "*"%char) by exact Hstar.
      rewrite lookup_empty. simpl.
      rewrite lookup_insert.
      destruct (decide (x = c)) as [_|_]; [|reflexivity].
      apply IH; assumption.
Qed.

(** C3 (wildcard branch step).  The claim has the step evaluate the
    suffix at every offset from 0 to len(r), the empty suffix included;
    the loop of the source stops at len(r) - 1, so the wildcard is never
    tried on the whole of what is left.  A rule [X*$] is thereby dead:
    alone in the matcher it leaves every path without special characters
    at the default, under either default; on the facade, after
    [disallow("/a*$")] the path ["/abc"] is allowed although
    [disallow("/a*")] refuses it, and the anchor below the wildcard does
    answer when the literal branch brings the evaluation to the same
    node with nothing left, as on the path ["/a*"]. *)
Theorem wildcard_before_anchor_is_dead :
  (forall (D : bool) (ruleType X path : string),
      plain X = true ->
      plain path = true ->
      ExpressionTree.evaluateExpression
        (insertAll (ExpressionTree.new D) [(X ++ "*$", ruleType)]) path = D) /\
  Permissions.isAllowed
    (addPaths Permissions.new [("/a*$", "disallow")]) "/abc" = true /\
  Permissions.isAllowed
    (addPaths Permissions.new [("/a*", "disallow")]) "/abc" = false /\
  Permissions.isAllowed
    (addPaths Permissions.new [("/a*$", "disallow")]) "/a*" = false /\
  Permissions.isAllowed
    (addPaths Permissions.new [("*$", "disallow")]) "b" = true.
Proof.
  split; [|repeat split; vm_compute; reflexivity].
  intros D ruleType X path HX Hpath.
  unfold ExpressionTree.evaluateExpression, __evaluateExpression.
  rewrite insertAll_default. simpl ExpressionTree.DEFAULT_PERMISSION.
  unfold insertAll. simpl fold_left.
  rewrite addExpression_root, addFrom_tree.
  change (ExpressionTree.root (ExpressionTree.new D)) with (newNode EmptyString).
  destruct (X ++ "*$") eqn:He.
  - destruct X; discriminate.
  - rewrite <- He. apply evaluateAt_dead_rule; assumption.
Qed.

(** The rule [/a*$] alone, on the path ["/abc"]. *)
Lemma wildcard_before_anchor_is_dead_witness :
  plain "/a" = true /\
  plain "/abc" = true /\
  ExpressionTree.evaluateExpression
    (insertAll (ExpressionTree.new true) [("/a" ++ "*$", "disallow")]) "/abc"
    = true.
Proof.
  assert (H1 : plain "/a" = true) by reflexivity.
  assert (H2 : plain "/abc" = true) by reflexivity.
  split; [exact H1|]. split; [exact H2|].
  exact (proj1 wildcard_before_anchor_is_dead true "disallow" "/a" "/abc" H1 H2).
Defined.
